(** * Portfolio front-end scripts: a shallow embedding and its properties

    The browser-side scripts of the portfolio site are embedded as pure
    functions over explicit component states:

    - [ScrollNav]     the click-to-scroll and scroll-spy code of
                      [smoothscroll.js] (the [DOMContentLoaded] closure);
    - [Certificates]  class [CertificateManager];
    - [Drawer]        class [MobileHeaderHandler];
    - [Projects]      class [ProjectManager] of [projects.js].

    Lengths in CSS pixels are rationals ([Q]); quantities the DOM reports as
    integers ([offsetWidth], [innerWidth]) are [Z].  A property of a JSON
    record that may be missing is an [option string]; JavaScript truthiness
    and the [||] operator are written out in [JS]. *)

From Stdlib Require Import ZArith QArith Qabs Qminmax Lia Bool Ascii String.
From stdpp Require Import base tactics option list strings gmap.

Local Open Scope string_scope.

(* ====================================================================== *)
(** * JavaScript values used by the scripts                                *)
(* ====================================================================== *)

Module JS.

(** Truthiness of a string-or-undefined value: [undefined] and the empty
    string are falsy. *)
Definition truthy (v : option string) : bool :=
  match v with
  | Some s => negb (String.eqb s "")
  | None => false
  end.

(** [v || d] with a string literal on the right. *)
Definition or_str (v : option string) (d : string) : string :=
  match v with
  | Some s => if String.eqb s "" then d else s
  | None => d
  end.

(** [a || b] with two properties. *)
Definition or_prop (a b : option string) : option string :=
  if truthy a then a else b.

(** Interpolation of a property inside a template literal. *)
Definition interp (v : option string) : string :=
  match v with
  | Some s => s
  | None => "undefined"
  end.

(** Assignment of a property to [textContent]: [undefined] is converted to
    the empty string. *)
Definition to_text (v : option string) : string :=
  match v with
  | Some s => s
  | None => ""
  end.

(** The outcome of a handler: a value, or an exception that escapes it. *)
Inductive Result (A : Type) : Type :=
| Ok (a : A)
| Throw (error : string).
Arguments Ok {A} a.
Arguments Throw {A} error.

(** [x < y] on pixel values. *)
Definition Qltb (x y : Q) : bool := negb (Qle_bool y x).

(** [Math.max] and [Math.min]. *)
Definition Math_max (x y : Q) : Q := if Qle_bool x y then y else x.
Definition Math_min (x y : Q) : Q := if Qle_bool x y then x else y.

End JS.

(* ====================================================================== *)
(** * Scroll navigator ([smoothscroll.js], lines 4-253)                    *)
(* ====================================================================== *)

Module ScrollNav.

Record Config := {
  headerOffset : Q;
  highlightOffset : Q;
  debugMode : bool
}.

Definition CONFIG : Config :=
  {| headerOffset := 80; highlightOffset := 150; debugMode := true |}.

(** An element that carries an [id].  [top] is the distance of its top
    edge from the start of the document, [offsetTop] the layout property
    of the same name. *)
Record Section := {
  id : string;
  top : Q;
  offsetTop : Q
}.

(** The four inline style properties the highlighting pass writes. *)
Record LinkStyle := {
  borderBottom : string;
  paddingBottom : string;
  transition : string;
  opacity : string
}.

Record Link := {
  href : option string;
  style : LinkStyle
}.

(** What the three [querySelectorAll] strategies return on the page, and
    the elements [getElementById] can find, in document order. *)
Record Page := {
  headerNavLinks : list Link;
  headerLinks : list Link;
  fragmentLinks : list Link;
  elements : list Section
}.

Record State := {
  navLinks : list Link;
  sections : list Section;
  document : list Section;
  scrollY : Q;
  scrollEventCount : nat;
  highlightUpdateCount : nat;
  clickEventCount : nat
}.

Definition getElementById (doc : list Section) (i : string) : option Section :=
  find (fun s => String.eqb (id s) i) doc.

(** [href.startsWith('#')] together with [href.substring(1)]. *)
Definition fragment (h : option string) : option string :=
  match h with
  | Some (String "#"%char rest) => Some rest
  | _ => None
  end.

(** The section a link resolves to, if any. *)
Definition resolve (doc : list Section) (l : Link) : option Section :=
  match fragment (href l) with
  | Some sectionId => getElementById doc sectionId
  | None => None
  end.

(** Strategy 1, then 2, then 3: the first list that is not empty. *)
Definition findNavLinks (p : Page) : list Link :=
  match headerNavLinks p with
  | _ :: _ => headerNavLinks p
  | [] =>
      match headerLinks p with
      | _ :: _ => headerLinks p
      | [] => fragmentLinks p
      end
  end.

(** [navLinks.forEach]: every resolved section is pushed, in link order. *)
Fixpoint linkSections (doc : list Section) (links : list Link) : list Section :=
  match links with
  | [] => []
  | l :: rest =>
      match resolve doc l with
      | Some s => s :: linkSections doc rest
      | None => linkSections doc rest
      end
  end.

Definition setup (p : Page) (y : Q) : State :=
  let links := findNavLinks p in
  {| navLinks := links;
     sections := linkSections (elements p) links;
     document := elements p;
     scrollY := y;
     scrollEventCount := 0;
     highlightUpdateCount := 0;
     clickEventCount := 0 |}.

(** [section.getBoundingClientRect().top]: relative to the viewport. *)
Definition rectTop (scrollPosition : Q) (s : Section) : Q :=
  (top s - scrollPosition)%Q.

Definition triggerPoint (scrollPosition : Q) : Q :=
  (scrollPosition + highlightOffset CONFIG)%Q.

Definition distance (scrollPosition : Q) (s : Section) : Q :=
  let absoluteTop := (rectTop scrollPosition s + scrollPosition)%Q in
  Qabs (triggerPoint scrollPosition - absoluteTop)%Q.

(** [distance < bestScore]; [None] is [Infinity]. *)
Definition better (d : Q) (bestScore : option Q) : bool :=
  match bestScore with
  | None => true
  | Some b => JS.Qltb d b
  end.

(** The body of [sections.forEach] of [updateHighlighting], from position
    [index] on, threading [(activeIndex, bestScore)]. *)
Fixpoint scan (scrollPosition : Q) (secs : list Section) (index : nat)
    (acc : nat * option Q) : nat * option Q :=
  match secs with
  | [] => acc
  | s :: rest =>
      let d := distance scrollPosition s in
      scan scrollPosition rest (S index)
           (if better d (snd acc) then (index, Some d) else acc)
  end.

Definition activeIndex (st : State) : nat :=
  fst (scan (scrollY st) (sections st) 0 (0, None)).

Definition activeStyle : LinkStyle :=
  {| borderBottom := "2px solid #ffffff"; paddingBottom := "4px";
     transition := "all 0.3s ease"; opacity := "1" |}.

Definition inactiveStyle : LinkStyle :=
  {| borderBottom := "none"; paddingBottom := "0";
     transition := "all 0.3s ease"; opacity := "0.7" |}.

Definition restyle (active : nat) (index : nat) (l : Link) : Link :=
  {| href := href l;
     style := if Nat.eqb index active then activeStyle else inactiveStyle |}.

Definition updateHighlighting (st : State) : State :=
  match sections st with
  | [] => st
  | _ :: _ =>
      {| navLinks := imap (restyle (activeIndex st)) (navLinks st);
         sections := sections st;
         document := document st;
         scrollY := scrollY st;
         scrollEventCount := scrollEventCount st;
         highlightUpdateCount := S (highlightUpdateCount st);
         clickEventCount := clickEventCount st |}
  end.

(** The window scrolls (by the user or by a scroll primitive). *)
Definition scrolled (y : Q) (st : State) : State :=
  {| navLinks := navLinks st;
     sections := sections st;
     document := document st;
     scrollY := y;
     scrollEventCount := scrollEventCount st;
     highlightUpdateCount := highlightUpdateCount st;
     clickEventCount := clickEventCount st |}.

(** ** Click-to-scroll *)

(** Which scrolling primitives of the embedding browser throw. *)
Record Browser := {
  scrollIntoView_throws : bool;
  getBoundingClientRect_throws : bool;
  scrollTo_options_throws : bool
}.

(** The scroll primitive a click ends up calling. *)
Inductive ScrollCall :=
| ScrollIntoView (target : Section)   (* behavior smooth, block start *)
| ScrollToSmooth (targetPosition : Q) (* window.scrollTo({top, behavior}) *)
| ScrollToInstant (targetPosition : Q) (* window.scrollTo(0, top) *).

Record ClickOutcome := {
  defaultPrevented : bool;
  scrollCall : option ScrollCall;
  highlightDelay : option nat;   (* the setTimeout of updateHighlighting *)
  after : State
}.

Definition counted (st : State) : State :=
  {| navLinks := navLinks st;
     sections := sections st;
     document := document st;
     scrollY := scrollY st;
     scrollEventCount := scrollEventCount st;
     highlightUpdateCount := highlightUpdateCount st;
     clickEventCount := S (clickEventCount st) |}.

(** The listener attached to every navigation link.  On the fallback path
    [window.pageYOffset || document.documentElement.scrollTop] is the
    scroll position. *)
Definition onClick (b : Browser) (l : Link) (st : State) : ClickOutcome :=
  let st1 := counted st in
  match resolve (document st) l with
  | Some targetSection =>
      if negb (scrollIntoView_throws b) then
        {| defaultPrevented := true;
           scrollCall := Some (ScrollIntoView targetSection);
           highlightDelay := Some 100%nat;
           after := st1 |}
      else
        let targetPosition :=
          if negb (getBoundingClientRect_throws b)
          then (rectTop (scrollY st) targetSection + scrollY st - headerOffset CONFIG)%Q
          else (offsetTop targetSection - headerOffset CONFIG)%Q in
        {| defaultPrevented := true;
           scrollCall := Some (if negb (scrollTo_options_throws b)
                               then ScrollToSmooth targetPosition
                               else ScrollToInstant targetPosition);
           highlightDelay := Some 300%nat;
           after := st1 |}
  | None =>
      {| defaultPrevented := false;
         scrollCall := None;
         highlightDelay := None;
         after := st1 |}
  end.

(** Where the viewport comes to rest once the requested scroll has run:
    [scrollIntoView] with [block: 'start'] aligns the top edge of the
    element with the top of the viewport, [scrollTo] goes to the position
    it is given. *)
Definition restPosition (c : ScrollCall) : Q :=
  match c with
  | ScrollIntoView target => top target
  | ScrollToSmooth y => y
  | ScrollToInstant y => y
  end.

(** The scroll position after a click has been handled and its scroll has
    settled; unchanged when no scroll was requested. *)
Definition settled (o : ClickOutcome) : Q :=
  match scrollCall o with
  | Some c => restPosition c
  | None => scrollY (after o)
  end.

End ScrollNav.

(* ====================================================================== *)
(** * What a [fetch] of a JSON array can produce                           *)
(* ====================================================================== *)

Module Fetch.

(** Either the request is rejected (network error), or a response arrives
    with a status and a body; [json] is [None] when the body does not
    parse. *)
Inductive Response (A : Type) : Type :=
| Rejected
| Replied (status : Z) (json : option (list A)).
Arguments Rejected {A}.
Arguments Replied {A} status json.

(** [response.ok] *)
Definition ok (status : Z) : bool :=
  ((200 <=? status) && (status <=? 299))%Z.

(** The array the [try] block obtains, or [None] when control reaches the
    [catch] block. *)
Definition body {A : Type} (r : Response A) : option (list A) :=
  match r with
  | Rejected => None
  | Replied status json => if ok status then json else None
  end.

End Fetch.

(* ====================================================================== *)
(** * Certificate gallery (class [CertificateManager])                     *)
(* ====================================================================== *)

Module Certificates.

Record Certificate := {
  name : option string;
  issuer : option string;
  image : option string;
  description : option string
}.

(** A [div.cert-card] with its image box, title and issuer paragraphs.
    [record] is the certificate the click and keydown listeners of the card
    have captured. *)
Record Card := {
  ariaLabel : string;
  index : nat;
  width : Q;
  imgSrc : string;
  imgAlt : string;
  titleText : string;
  titleFontSize : string;
  titleMinHeight : string;
  issuerText : string;
  issuerFontSize : string;
  issuerMinHeight : string;
  record : Certificate
}.

(** Children of the container: the error paragraph, a card, or markup that
    did not come from this component. *)
Inductive Node :=
| ErrorParagraph (text : string)
| CardNode (c : Card)
| Foreign (text : string).

Record Modal := {
  modalTitle : string;
  modalIssuer : string;
  modalDesc : string;
  modalImage : string;      (* style.backgroundImage *)
  display : string;
  closeFocused : bool
}.

Record State := {
  certificates : list Certificate;
  jsonPath : string;
  offsetWidth : Z;
  container : list Node;
  containerStyle : gmap string string;
  modal : option Modal;
  bodyOverflow : string;
  resizeListeners : nat
}.

Definition set_container (c : list Node) (st : State) : State :=
  {| certificates := certificates st; jsonPath := jsonPath st;
     offsetWidth := offsetWidth st; container := c;
     containerStyle := containerStyle st; modal := modal st;
     bodyOverflow := bodyOverflow st; resizeListeners := resizeListeners st |}.

Definition set_offsetWidth (w : Z) (st : State) : State :=
  {| certificates := certificates st; jsonPath := jsonPath st;
     offsetWidth := w; container := container st;
     containerStyle := containerStyle st; modal := modal st;
     bodyOverflow := bodyOverflow st; resizeListeners := resizeListeners st |}.

(** The constructor, on a page where [containerSelector] finds an element
    of the given width and children; [init] has not run yet. *)
Definition create (path : string) (w : Z) (children : list Node) : State :=
  {| certificates := []; jsonPath := path; offsetWidth := w;
     container := children; containerStyle := ∅; modal := None;
     bodyOverflow := ""; resizeListeners := 0 |}.

Definition createModal (st : State) : State :=
  {| certificates := certificates st; jsonPath := jsonPath st;
     offsetWidth := offsetWidth st; container := container st;
     containerStyle := containerStyle st;
     modal := Some {| modalTitle := ""; modalIssuer := ""; modalDesc := "";
                      modalImage := ""; display := "none";
                      closeFocused := false |};
     bodyOverflow := bodyOverflow st; resizeListeners := resizeListeners st |}.

Definition errorText (path : string) : string :=
  "Failed to load certificates. Please check " ++ path ++ ".".

Definition loadCertificates (r : Fetch.Response Certificate) (st : State) : State :=
  match Fetch.body r with
  | Some array =>
      {| certificates := array; jsonPath := jsonPath st;
         offsetWidth := offsetWidth st; container := container st;
         containerStyle := containerStyle st; modal := modal st;
         bodyOverflow := bodyOverflow st;
         resizeListeners := resizeListeners st |}
  | None => set_container [ErrorParagraph (errorText (jsonPath st))] st
  end.

Definition calculateCardWidth (st : State) : Q :=
  let containerWidth := inject_Z (offsetWidth st) in
  let numCards := length (certificates st) in
  let gap : Q := 16%Q in
  let containerPadding : Q := 24%Q in
  match numCards with
  | 0%nat => 160%Q
  | 1%nat => JS.Math_min 300 (containerWidth - containerPadding)%Q
  | _ =>
      let availableWidth :=
        (containerWidth - containerPadding
         - gap * (inject_Z (Z.of_nat numCards) - 1))%Q in
      let cardWidth := (availableWidth / inject_Z (Z.of_nat numCards))%Q in
      JS.Math_max 120%Q cardWidth
  end.

(** The properties [renderCertificates] assigns to the container's style. *)
Definition essentialStyle : gmap string string :=
  list_to_map
    [("display", "flex"); ("justifyContent", "center");
     ("alignItems", "flex-start"); ("flexWrap", "nowrap");
     ("overflowX", "auto"); ("scrollBehavior", "smooth");
     ("gap", "16px"); ("padding", "12px"); ("width", "100%");
     ("boxSizing", "border-box")].

Definition createCard (cardWidth : Q) (isSmallCard : bool) (idx : nat)
    (cert : Certificate) : Card :=
  {| ariaLabel := "View certificate: " ++ JS.interp (name cert)
                  ++ " issued by " ++ JS.interp (issuer cert);
     index := idx;
     width := cardWidth;
     imgSrc := JS.or_str (image cert) "";
     imgAlt := JS.or_str (name cert) "Certificate image";
     titleText := JS.or_str (name cert) "";
     titleFontSize := if isSmallCard then "12px" else "14px";
     titleMinHeight := if isSmallCard then "32px" else "36px";
     issuerText := JS.or_str (issuer cert) "";
     issuerFontSize := if isSmallCard then "10px" else "12px";
     issuerMinHeight := if isSmallCard then "20px" else "24px";
     record := cert |}.

Definition renderCertificates (st : State) : State :=
  let cardWidth := calculateCardWidth st in
  let isSmallCard := Qle_bool cardWidth 180%Q in
  {| certificates := certificates st; jsonPath := jsonPath st;
     offsetWidth := offsetWidth st;
     container :=
       imap (fun idx cert => CardNode (createCard cardWidth isSmallCard idx cert))
            (certificates st);
     containerStyle := essentialStyle ∪ containerStyle st;
     modal := modal st;
     bodyOverflow := bodyOverflow st; resizeListeners := resizeListeners st |}.

Definition addResizeListener (st : State) : State :=
  {| certificates := certificates st; jsonPath := jsonPath st;
     offsetWidth := offsetWidth st; container := container st;
     containerStyle := containerStyle st; modal := modal st;
     bodyOverflow := bodyOverflow st;
     resizeListeners := S (resizeListeners st) |}.

(** [init], with the response the awaited fetch produces. *)
Definition init (r : Fetch.Response Certificate) (st : State) : State :=
  addResizeListener (renderCertificates (loadCertificates r (createModal st))).

(** A resize of the window runs every registered listener. *)
Definition onResize (w : Z) (st : State) : State :=
  Nat.iter (resizeListeners st) renderCertificates (set_offsetWidth w st).

Definition showModal (cert : Certificate) (st : State) : JS.Result State :=
  match modal st with
  | None => JS.Throw "TypeError: Cannot set properties of null"
  | Some _ =>
      JS.Ok
        {| certificates := certificates st; jsonPath := jsonPath st;
           offsetWidth := offsetWidth st; container := container st;
           containerStyle := containerStyle st;
           modal :=
             Some {| modalTitle := JS.or_str (name cert) "";
                     modalIssuer :=
                       if JS.truthy (issuer cert)
                       then "Issued by " ++ JS.interp (issuer cert) else "";
                     modalDesc :=
                       JS.or_str (description cert) "No description available.";
                     modalImage := "url('" ++ JS.or_str (image cert) "" ++ "')";
                     display := "flex";
                     closeFocused := true |};
           bodyOverflow := "hidden";
           resizeListeners := resizeListeners st |}
  end.

Definition hideModal (st : State) : JS.Result State :=
  match modal st with
  | None => JS.Throw "TypeError: Cannot read properties of null"
  | Some m =>
      JS.Ok
        {| certificates := certificates st; jsonPath := jsonPath st;
           offsetWidth := offsetWidth st; container := container st;
           containerStyle := containerStyle st;
           modal :=
             Some {| modalTitle := modalTitle m; modalIssuer := modalIssuer m;
                     modalDesc := modalDesc m; modalImage := modalImage m;
                     display := "none"; closeFocused := closeFocused m |};
           bodyOverflow := "";
           resizeListeners := resizeListeners st |}
  end.


Record KeyOutcome := {
  defaultPrevented : bool;
  result : JS.Result State
}.

Definition onCardKeydown (key : string) (c : Card) (st : State) : KeyOutcome :=
  if String.eqb key "Enter" || String.eqb key " "
  then {| defaultPrevented := true; result := showModal (record c) st |}
  else {| defaultPrevented := false; result := JS.Ok st |}.

(** Observations on the container. *)
Definition cards (ns : list Node) : list Card :=
  omap (fun n => match n with CardNode c => Some c | _ => None end) ns.

Definition isError (n : Node) : bool :=
  match n with ErrorParagraph _ => true | _ => false end.

Definition textContent (n : Node) : string :=
  match n with
  | ErrorParagraph t => t
  | CardNode c => titleText c ++ issuerText c
  | Foreign t => t
  end.

End Certificates.

(* ====================================================================== *)
(** * Project gallery (class [ProjectManager], [projects.js])              *)
(* ====================================================================== *)

Module Projects.

Record Project := {
  title : option string;
  description : option string;
  image : option string;
  github : option string;
  huggingface : option string;
  hugging_face : option string
}.

(** The action button of a card, by its class. *)
Inductive Button :=
| GithubBtn        (* button.github-btn *)
| HuggingfaceBtn   (* button.huggingface-btn *).

Definition label (b : Button) : string :=
  match b with
  | GithubBtn => "View on GitHub"
  | HuggingfaceBtn => "View on Hugging Face"
  end.

(** A [div.project-card]: the image box, the title paragraph and what
    [buttonHTML] holds.  The title is taken as text. *)
Record Card := {
  dataProjectIndex : nat;
  backgroundImage : string;
  titleText : string;
  buttons : list Button
}.

Inductive Node :=
| CardNode (c : Card)
| ErrorDiv (text : string)
| Foreign (text : string).

(** The element [.flex.overflow-y-auto]: its inner container
    [.flex.items-stretch.p-4.gap-3], when it has one, and the children
    appended to the section itself. *)
Record Section := {
  inner : option (list Node);
  appended : list Node
}.

Record Modal := {
  modalTitle : string;
  modalImage : string;           (* style.backgroundImage *)
  modalDescription : string;
  githubHidden : bool;           (* #modal-github has class hidden *)
  githubHref : string;
  huggingfaceHidden : bool;      (* #modal-huggingface has class hidden *)
  huggingfaceHref : string;
  hidden : bool;
  flex : bool
}.

Record State := {
  projects : list Project;
  projectSection : option Section;
  projectContainer : bool;       (* this.projectContainer is not null *)
  modal : option Modal;
  bodyOverflow : string;
  opened : list string;          (* window.open(url, '_blank') calls *)
  listening : bool
}.

Definition placeholder : string :=
  "https://via.placeholder.com/400x225/212121/ffffff?text=Project+Image".

Definition set_projects (ps : list Project) (st : State) : State :=
  {| projects := ps; projectSection := projectSection st;
     projectContainer := projectContainer st; modal := modal st;
     bodyOverflow := bodyOverflow st; opened := opened st;
     listening := listening st |}.

Definition set_section (s : option Section) (st : State) : State :=
  {| projects := projects st; projectSection := s;
     projectContainer := projectContainer st; modal := modal st;
     bodyOverflow := bodyOverflow st; opened := opened st;
     listening := listening st |}.

Definition set_modal (m : option Modal) (overflow : string) (st : State) : State :=
  {| projects := projects st; projectSection := projectSection st;
     projectContainer := projectContainer st; modal := m;
     bodyOverflow := overflow; opened := opened st;
     listening := listening st |}.

(** The constructor before [initialize] runs, on a page with the given
    project section. *)
Definition create (s : option Section) : State :=
  {| projects := []; projectSection := s; projectContainer := false;
     modal := None; bodyOverflow := ""; opened := []; listening := false |}.

Definition createModal (st : State) : State :=
  set_modal
    (Some {| modalTitle := ""; modalImage := ""; modalDescription := "";
             githubHidden := true; githubHref := "";
             huggingfaceHidden := true; huggingfaceHref := "";
             hidden := true; flex := false |})
    (bodyOverflow st) st.

Definition buttonHTML (project : Project) : list Button :=
  if JS.truthy (github project) then [GithubBtn]
  else if JS.truthy (JS.or_prop (huggingface project) (hugging_face project))
       then [HuggingfaceBtn]
       else [].

Definition createProjectCard (project : Project) (index : nat) : Card :=
  let imageUrl := JS.or_str (image project) placeholder in
  {| dataProjectIndex := index;
     backgroundImage := "url('" ++ imageUrl ++ "')";
     titleText := JS.interp (title project);
     buttons := buttonHTML project |}.

Definition renderProjects (st : State) : State :=
  match projectSection st with
  | None => st
  | Some s =>
      match inner s with
      | None =>
          {| projects := projects st; projectSection := projectSection st;
             projectContainer := false; modal := modal st;
             bodyOverflow := bodyOverflow st; opened := opened st;
             listening := listening st |}
      | Some _ =>
          {| projects := projects st;
             projectSection :=
               Some {| inner :=
                         Some (imap (fun index project =>
                                       CardNode (createProjectCard project index))
                                    (projects st));
                       appended := appended s |};
             projectContainer := true; modal := modal st;
             bodyOverflow := bodyOverflow st; opened := opened st;
             listening := listening st |}
      end
  end.

Definition showErrorMessage (message : string) (st : State) : State :=
  match projectSection st with
  | Some s =>
      set_section
        (Some {| inner := inner s;
                 appended := appended s ++ [ErrorDiv message] |}) st
  | None => st
  end.

Definition loadFailure : string :=
  "Failed to load projects. Please check if projects.json exists.".

Definition loadProjects (r : Fetch.Response Project) (st : State) : State :=
  match Fetch.body r with
  | Some array => renderProjects (set_projects array st)
  | None => showErrorMessage loadFailure st
  end.

Definition setupEventListeners (st : State) : State :=
  {| projects := projects st; projectSection := projectSection st;
     projectContainer := projectContainer st; modal := modal st;
     bodyOverflow := bodyOverflow st; opened := opened st;
     listening := true |}.

Definition initialize (r : Fetch.Response Project) (st : State) : State :=
  setupEventListeners (loadProjects r (createModal st)).

Definition showProjectModal (project : option Project) (st : State)
    : JS.Result State :=
  match modal st with
  | None => JS.Ok st
  | Some m =>
      match project with
      | None => JS.Throw "TypeError: Cannot read properties of undefined"
      | Some p =>
          let hfLink := JS.or_prop (huggingface p) (hugging_face p) in
          JS.Ok
            (set_modal
               (Some {| modalTitle := JS.to_text (title p);
                        modalImage :=
                          "url('" ++ JS.or_str (image p) placeholder ++ "')";
                        modalDescription := JS.to_text (description p);
                        githubHidden := negb (JS.truthy (github p));
                        githubHref :=
                          if JS.truthy (github p)
                          then JS.interp (github p) else githubHref m;
                        huggingfaceHidden := negb (JS.truthy hfLink);
                        huggingfaceHref :=
                          if JS.truthy hfLink
                          then JS.interp hfLink else huggingfaceHref m;
                        hidden := false;
                        flex := true |})
               "hidden" st)
      end
  end.

Definition hideProjectModal (st : State) : State :=
  match modal st with
  | None => st
  | Some m =>
      set_modal
        (Some {| modalTitle := modalTitle m; modalImage := modalImage m;
                 modalDescription := modalDescription m;
                 githubHidden := githubHidden m; githubHref := githubHref m;
                 huggingfaceHidden := huggingfaceHidden m;
                 huggingfaceHref := huggingfaceHref m;
                 hidden := true; flex := false |})
        "" st
  end.

(** Where an event of the page can land.  The index is the
    [data-project-index] of the enclosing card. *)
Inductive Target :=
| OnCard (index : nat)
| OnGithubBtn (index : nat)
| OnHuggingfaceBtn (index : nat)
| OnModalClose
| OnModalBackdrop
| OnModalContent
| Elsewhere.

(** [e.target.closest('.project-card')]: the buttons are descendants of
    their card. *)
Definition closestProjectCard (t : Target) : option nat :=
  match t with
  | OnCard i | OnGithubBtn i | OnHuggingfaceBtn i => Some i
  | _ => None
  end.

Definition closestGithubBtn (t : Target) : bool :=
  match t with OnGithubBtn _ => true | _ => false end.

Definition closestHuggingfaceBtn (t : Target) : bool :=
  match t with OnHuggingfaceBtn _ => true | _ => false end.

Definition windowOpen (url : string) (st : State) : State :=
  {| projects := projects st; projectSection := projectSection st;
     projectContainer := projectContainer st; modal := modal st;
     bodyOverflow := bodyOverflow st; opened := opened st ++ [url];
     listening := listening st |}.

(** The click listener of the document. *)
Definition onClick (t : Target) (st : State) : JS.Result State :=
  match closestProjectCard t with
  | Some index => showProjectModal (projects st !! index) st
  | None =>
      if closestGithubBtn t then
        match closestProjectCard t with
        | None => JS.Throw "TypeError: Cannot read properties of null"
        | Some index =>
            match projects st !! index with
            | None => JS.Throw "TypeError: Cannot read properties of undefined"
            | Some project =>
                if JS.truthy (github project)
                then JS.Ok (windowOpen (JS.interp (github project)) st)
                else JS.Ok st
            end
        end
      else if closestHuggingfaceBtn t then
        match closestProjectCard t with
        | None => JS.Throw "TypeError: Cannot read properties of null"
        | Some index =>
            match projects st !! index with
            | None => JS.Throw "TypeError: Cannot read properties of undefined"
            | Some project =>
                let hfLink :=
                  JS.or_prop (huggingface project) (hugging_face project) in
                if JS.truthy hfLink
                then JS.Ok (windowOpen (JS.interp hfLink) st)
                else JS.Ok st
            end
        end
      else
        match t with
        | OnModalClose | OnModalBackdrop => JS.Ok (hideProjectModal st)
        | _ => JS.Ok st
        end
  end.

(** The keydown listener of the document, the only one the component
    registers for keys. *)
Definition onKeydown (key : string) (st : State) : State :=
  match modal st with
  | Some m =>
      if String.eqb key "Escape" && negb (hidden m)
      then hideProjectModal st else st
  | None => st
  end.

(** A key pressed on the card with the given index: the card has no
    listener of its own, the event reaches the document. *)
Definition onCardKeydown (key : string) (index : nat) (st : State) : State :=
  onKeydown key st.

Definition addProject (project : Project) (st : State) : State :=
  renderProjects (set_projects (projects st ++ [project]) st).

(** [index] is an integer; [splice(index, 1)] is reached only when it is a
    position of the array. *)
Definition removeProject (index : Z) (st : State) : State :=
  if ((0 <=? index) && (index <? Z.of_nat (length (projects st))))%Z
  then renderProjects (set_projects (delete (Z.to_nat index) (projects st)) st)
  else st.

(** Observations on the inner container. *)
Definition rendered (st : State) : list Node :=
  match projectSection st with
  | Some s => default [] (inner s)
  | None => []
  end.

Definition cards (ns : list Node) : list Card :=
  omap (fun n => match n with CardNode c => Some c | _ => None end) ns.

Definition textContent (n : Node) : string :=
  match n with
  | CardNode c => titleText c ++ String.concat "" (map label (buttons c))
  | ErrorDiv t => t
  | Foreign t => t
  end.

Definition isError (n : Node) : bool :=
  match n with ErrorDiv _ => true | _ => false end.

(** The error messages the project section shows. *)
Definition errors (st : State) : list Node :=
  match projectSection st with
  | Some s => List.filter isError (appended s)
  | None => []
  end.

End Projects.

(* ====================================================================== *)
(** * Mobile drawer controller (class [MobileHeaderHandler])               *)
(* ====================================================================== *)

Module Drawer.

Record Options := {
  mobileBreakpoint : Z;
  smallMobileBreakpoint : Z;
  headerSelectors : list string;
  animationDuration : Z;
  autoInit : bool
}.

Definition defaults : Options :=
  {| mobileBreakpoint := 900;
     smallMobileBreakpoint := 540;
     headerSelectors :=
       ["header"; ".header"; "#header"; "nav"; ".nav"; ".navigation";
        ".navbar"; ".top-nav"; ".header-nav"; ".main-nav"];
     animationDuration := 300;
     autoInit := true |}.

(** The nodes the controller appends to [document.body].  [shown] is the
    open state the node displays: class [open] on the button, the visible
    backdrop, the drawer translated into view.  What [populateDrawer] puts
    inside the drawer is not part of the state. *)
Inductive Kind := Hamburger | Backdrop | DrawerPanel.

Record Node := {
  nodeId : nat;
  kind : Kind;
  shown : bool
}.

(** The fields of the handler object, and the part of the page it reads
    and writes: the inline [display] of the page's own elements, the nodes
    appended to the body, the body's [overflow], the style sheet of the
    button, and the width of the window. *)
Record State := {
  header : option nat;
  hamburgerButton : option nat;
  drawer : option nat;
  backdrop : option nat;
  isOpen : bool;
  isMobile : bool;
  isSmallMobile : bool;
  resizeListeners : nat;
  keydownListeners : nat;
  innerWidth : Z;
  displayOf : nat -> string;
  body : list Node;
  nextNode : nat;
  bodyOverflow : string;
  hamburgerStyles : bool
}.

Definition kindEq (a b : Kind) : bool :=
  match a, b with
  | Hamburger, Hamburger | Backdrop, Backdrop | DrawerPanel, DrawerPanel => true
  | _, _ => false
  end.

Section Handler.

(** The options the handler was constructed with, and
    [document.querySelector] on the markup of the page: the nodes the
    controller creates match none of the header selectors. *)
Variable options : Options.
Variable querySelector : string -> option nat.

Definition initial (w : Z) (display0 : nat -> string) : State :=
  {| header := None; hamburgerButton := None; drawer := None;
     backdrop := None; isOpen := false; isMobile := false;
     isSmallMobile := false; resizeListeners := 0; keydownListeners := 0;
     innerWidth := w; displayOf := display0; body := []; nextNode := 0;
     bodyOverflow := ""; hamburgerStyles := false |}.

Definition checkMobile (st : State) : State :=
  let width := innerWidth st in
  {| header := header st; hamburgerButton := hamburgerButton st;
     drawer := drawer st; backdrop := backdrop st; isOpen := isOpen st;
     isMobile := (width <=? mobileBreakpoint options)%Z;
     isSmallMobile := (width <=? smallMobileBreakpoint options)%Z;
     resizeListeners := resizeListeners st;
     keydownListeners := keydownListeners st;
     innerWidth := innerWidth st; displayOf := displayOf st;
     body := body st; nextNode := nextNode st;
     bodyOverflow := bodyOverflow st;
     hamburgerStyles := hamburgerStyles st |}.

(** The loop of [findHeader]: the element of the first selector that
    matches. *)
Fixpoint firstMatch (selectors : list string) : option nat :=
  match selectors with
  | [] => None
  | selector :: rest =>
      match querySelector selector with
      | Some element => Some element
      | None => firstMatch rest
      end
  end.

Definition set_header (h : option nat) (st : State) : State :=
  {| header := h; hamburgerButton := hamburgerButton st;
     drawer := drawer st; backdrop := backdrop st; isOpen := isOpen st;
     isMobile := isMobile st; isSmallMobile := isSmallMobile st;
     resizeListeners := resizeListeners st;
     keydownListeners := keydownListeners st;
     innerWidth := innerWidth st; displayOf := displayOf st;
     body := body st; nextNode := nextNode st;
     bodyOverflow := bodyOverflow st;
     hamburgerStyles := hamburgerStyles st |}.

Definition findHeader (st : State) : State :=
  match firstMatch (headerSelectors options) with
  | Some element => set_header (Some element) st
  | None => st
  end.

(** [node.remove()] *)
Definition detach (n : nat) (nodes : list Node) : list Node :=
  List.filter (fun x => negb (Nat.eqb (nodeId x) n)) nodes.

Definition removeHamburgerButton (st : State) : State :=
  match hamburgerButton st with
  | Some b =>
      {| header := header st; hamburgerButton := None;
         drawer := drawer st; backdrop := backdrop st; isOpen := isOpen st;
         isMobile := isMobile st; isSmallMobile := isSmallMobile st;
         resizeListeners := resizeListeners st;
         keydownListeners := keydownListeners st;
         innerWidth := innerWidth st; displayOf := displayOf st;
         body := detach b (body st); nextNode := nextNode st;
         bodyOverflow := bodyOverflow st;
         hamburgerStyles := hamburgerStyles st |}
  | None => st
  end.

Definition createHamburgerButton (st : State) : State :=
  let st1 := removeHamburgerButton st in
  let b := nextNode st1 in
  {| header := header st1; hamburgerButton := Some b;
     drawer := drawer st1; backdrop := backdrop st1; isOpen := isOpen st1;
     isMobile := isMobile st1; isSmallMobile := isSmallMobile st1;
     resizeListeners := resizeListeners st1;
     keydownListeners := keydownListeners st1;
     innerWidth := innerWidth st1; displayOf := displayOf st1;
     body := body st1 ++ [{| nodeId := b; kind := Hamburger; shown := false |}];
     nextNode := S b;
     bodyOverflow := bodyOverflow st1;
     hamburgerStyles := true |}.

Definition removeDrawer (st : State) : State :=
  let body1 := match drawer st with
               | Some d => detach d (body st)
               | None => body st
               end in
  let body2 := match backdrop st with
               | Some k => detach k body1
               | None => body1
               end in
  {| header := header st; hamburgerButton := hamburgerButton st;
     drawer := None; backdrop := None; isOpen := isOpen st;
     isMobile := isMobile st; isSmallMobile := isSmallMobile st;
     resizeListeners := resizeListeners st;
     keydownListeners := keydownListeners st;
     innerWidth := innerWidth st; displayOf := displayOf st;
     body := body2; nextNode := nextNode st;
     bodyOverflow := bodyOverflow st;
     hamburgerStyles := hamburgerStyles st |}.

Definition createDrawer (st : State) : State :=
  let st1 := removeDrawer st in
  let k := nextNode st1 in
  let d := S k in
  {| header := header st1; hamburgerButton := hamburgerButton st1;
     drawer := Some d; backdrop := Some k; isOpen := isOpen st1;
     isMobile := isMobile st1; isSmallMobile := isSmallMobile st1;
     resizeListeners := resizeListeners st1;
     keydownListeners := keydownListeners st1;
     innerWidth := innerWidth st1; displayOf := displayOf st1;
     body := body st1
             ++ [{| nodeId := k; kind := Backdrop; shown := false |};
                 {| nodeId := d; kind := DrawerPanel; shown := false |}];
     nextNode := S d;
     bodyOverflow := bodyOverflow st1;
     hamburgerStyles := hamburgerStyles st1 |}.

Definition setupEventListeners (st : State) : State :=
  {| header := header st; hamburgerButton := hamburgerButton st;
     drawer := drawer st; backdrop := backdrop st; isOpen := isOpen st;
     isMobile := isMobile st; isSmallMobile := isSmallMobile st;
     resizeListeners := resizeListeners st;
     keydownListeners := S (keydownListeners st);
     innerWidth := innerWidth st; displayOf := displayOf st;
     body := body st; nextNode := nextNode st;
     bodyOverflow := bodyOverflow st;
     hamburgerStyles := hamburgerStyles st |}.

Definition set_display (element : nat) (value : string) (st : State) : State :=
  {| header := header st; hamburgerButton := hamburgerButton st;
     drawer := drawer st; backdrop := backdrop st; isOpen := isOpen st;
     isMobile := isMobile st; isSmallMobile := isSmallMobile st;
     resizeListeners := resizeListeners st;
     keydownListeners := keydownListeners st;
     innerWidth := innerWidth st;
     displayOf := fun e => if Nat.eqb e element then value else displayOf st e;
     body := body st; nextNode := nextNode st;
     bodyOverflow := bodyOverflow st;
     hamburgerStyles := hamburgerStyles st |}.

Definition hideOriginalHeader (st : State) : State :=
  match header st with
  | Some h => set_display h "none" st
  | None => st
  end.

Definition showOriginalHeader (st : State) : State :=
  match header st with
  | Some h => set_display h "" st
  | None => st
  end.

Definition setupResizeListener (st : State) : State :=
  {| header := header st; hamburgerButton := hamburgerButton st;
     drawer := drawer st; backdrop := backdrop st; isOpen := isOpen st;
     isMobile := isMobile st; isSmallMobile := isSmallMobile st;
     resizeListeners := S (resizeListeners st);
     keydownListeners := keydownListeners st;
     innerWidth := innerWidth st; displayOf := displayOf st;
     body := body st; nextNode := nextNode st;
     bodyOverflow := bodyOverflow st;
     hamburgerStyles := hamburgerStyles st |}.

Definition setup (st : State) : State :=
  let st1 := checkMobile st in
  let st2 :=
    if isMobile st1 then
      let st' := findHeader st1 in
      match header st' with
      | Some _ =>
          hideOriginalHeader
            (setupEventListeners (createDrawer (createHamburgerButton st')))
      | None => st'
      end
    else removeDrawer (removeHamburgerButton (showOriginalHeader st1)) in
  setupResizeListener st2.

(** The constructor: [autoInit] runs [setup] on the loaded page. *)
Definition create (w : Z) (display0 : nat -> string) : State :=
  if autoInit options then setup (initial w display0) else initial w display0.

(** The body of the debounced resize timer. *)
Definition resizeCallback (st : State) : State :=
  let wasMobile := isMobile st in
  let st1 := checkMobile st in
  if Bool.eqb wasMobile (isMobile st1) then st1 else setup st1.

Definition set_innerWidth (w : Z) (st : State) : State :=
  {| header := header st; hamburgerButton := hamburgerButton st;
     drawer := drawer st; backdrop := backdrop st; isOpen := isOpen st;
     isMobile := isMobile st; isSmallMobile := isSmallMobile st;
     resizeListeners := resizeListeners st;
     keydownListeners := keydownListeners st;
     innerWidth := w; displayOf := displayOf st;
     body := body st; nextNode := nextNode st;
     bodyOverflow := bodyOverflow st;
     hamburgerStyles := hamburgerStyles st |}.

(** The window is resized to width [w] and the timers of all resize
    listeners registered so far run. *)
Definition onResize (w : Z) (st : State) : State :=
  Nat.iter (resizeListeners st) resizeCallback (set_innerWidth w st).

Definition isNode (r : option nat) (x : Node) : bool :=
  match r with
  | Some n => Nat.eqb (nodeId x) n
  | None => false
  end.

(** The style and class changes of [showDrawer] and [hideDrawer]. *)
Definition display_open (o : bool) (st : State) : list Node :=
  map (fun x =>
         if isNode (backdrop st) x || isNode (drawer st) x
            || isNode (hamburgerButton st) x
         then {| nodeId := nodeId x; kind := kind x; shown := o |}
         else x)
      (body st).

Definition set_open (o : bool) (overflow : string) (st : State) : State :=
  {| header := header st; hamburgerButton := hamburgerButton st;
     drawer := drawer st; backdrop := backdrop st; isOpen := o;
     isMobile := isMobile st; isSmallMobile := isSmallMobile st;
     resizeListeners := resizeListeners st;
     keydownListeners := keydownListeners st;
     innerWidth := innerWidth st; displayOf := displayOf st;
     body := display_open o st; nextNode := nextNode st;
     bodyOverflow := overflow;
     hamburgerStyles := hamburgerStyles st |}.

Definition showDrawer (st : State) : State :=
  match drawer st, backdrop st with
  | Some _, Some _ => set_open true "hidden" st
  | _, _ => st
  end.

Definition hideDrawer (st : State) : State :=
  match drawer st, backdrop st with
  | Some _, Some _ => set_open false "" st
  | _, _ => st
  end.

Definition toggleDrawer (st : State) : State :=
  if isOpen st then hideDrawer st else showDrawer st.

(** What can happen to the controller after construction. *)
Inductive Event :=
| Resize (w : Z)
| HamburgerClick          (* the button's click listener *)
| CloseRequest            (* backdrop, close button, drawer item, swipe up *)
| EscapeKey
| Refresh                 (* the public [refresh()] *).

Definition onEscape (st : State) : State :=
  if isOpen st then hideDrawer st else st.

Definition step (st : State) (ev : Event) : State :=
  match ev with
  | Resize w => onResize w st
  | HamburgerClick =>
      match hamburgerButton st with
      | Some _ => toggleDrawer st
      | None => st
      end
  | CloseRequest => hideDrawer st
  | EscapeKey => Nat.iter (keydownListeners st) onEscape st
  | Refresh => setup st
  end.

Definition run (evs : list Event) (st : State) : State :=
  fold_left step evs st.

(** Observations. *)
Definition has (k : Kind) (st : State) : bool :=
  existsb (fun x => kindEq (kind x) k) (body st).

Definition apparatusPresent (st : State) : bool :=
  has Hamburger st && has Backdrop st && has DrawerPanel st.

Definition headerVisible (h : nat) (st : State) : bool :=
  negb (String.eqb (displayOf st h) "none").

End Handler.

End Drawer.

(* ====================================================================== *)
(** * Properties                                                           *)
(* ====================================================================== *)

Local Open Scope list_scope.

(** ** Arithmetic on pixel values *)

Lemma Qltb_lt (x y : Q) : JS.Qltb x y = true <-> (x < y)%Q.
Proof.
  unfold JS.Qltb. rewrite negb_true_iff. split.
  - intros H. apply Qnot_le_lt. intros Hle.
    apply Qle_bool_iff in Hle. congruence.
  - intros H. destruct (Qle_bool y x) eqn:E; [|reflexivity].
    apply Qle_bool_iff in E. exfalso. exact (Qlt_not_le _ _ H E).
Qed.

Lemma Qltb_ge (x y : Q) : JS.Qltb x y = false <-> (y <= x)%Q.
Proof.
  unfold JS.Qltb. rewrite negb_false_iff. apply Qle_bool_iff.
Qed.

(** ** Scroll navigator *)

Module ScrollNavFacts.
Import ScrollNav.

(** The sections of a state are the ones its links resolve to. *)
Definition linked (st : State) : Prop :=
  sections st = linkSections (document st) (navLinks st).

(** The distance the code computes is the distance between the trigger
    point and the top edge of the section in the document. *)
Lemma distance_top (y : Q) (s : Section) :
  (distance y s == Qabs (triggerPoint y - top s))%Q.
Proof.
  unfold distance, rectTop. apply Qabs_wd. ring.
Qed.

(** What the accumulator of [scan] holds once the sections of [prefix]
    have been visited. *)
Definition best_of (y : Q) (prefix : list Section) (acc : nat * option Q) : Prop :=
  match snd acc with
  | None => prefix = []
  | Some m =>
      exists s, prefix !! fst acc = Some s /\ m = distance y s
        /\ (forall j s', prefix !! j = Some s' -> (m <= distance y s')%Q)
        /\ (forall j s', (j < fst acc)%nat -> prefix !! j = Some s' ->
                         (m < distance y s')%Q)
  end.

Lemma best_of_step (y : Q) (prefix : list Section) (s : Section)
    (acc : nat * option Q) :
  best_of y prefix acc ->
  best_of y (prefix ++ [s])
    (if better (distance y s) (snd acc)
     then (length prefix, Some (distance y s)) else acc).
Proof.
  destruct acc as [a [m|]]; unfold best_of; simpl.
  - intros (s0 & Ha & -> & Hmin & Hfirst).
    destruct (JS.Qltb (distance y s) (distance y s0)) eqn:E; simpl.
    + apply Qltb_lt in E. exists s. split; [|split; [reflexivity|split]].
      * rewrite lookup_app_r by lia. now rewrite Nat.sub_diag.
      * intros j s' Hj. apply lookup_app_Some in Hj as [Hj|[_ Hj]].
        -- apply Qlt_le_weak. eapply Qlt_le_trans; [exact E|]. eauto.
        -- apply list_lookup_singleton_Some in Hj as [_ <-]. apply Qle_refl.
      * intros j s' Hlt Hj. rewrite lookup_app_l in Hj by exact Hlt.
        eapply Qlt_le_trans; [exact E|]. eauto.
    + apply Qltb_ge in E. exists s0. split; [|split; [reflexivity|split]].
      * apply lookup_app_l_Some. exact Ha.
      * intros j s' Hj. apply lookup_app_Some in Hj as [Hj|[_ Hj]].
        -- eauto.
        -- apply list_lookup_singleton_Some in Hj as [_ <-]. exact E.
      * intros j s' Hlt Hj. apply lookup_lt_Some in Ha.
        rewrite lookup_app_l in Hj by lia. eauto.
  - intros ->. simpl. exists s. split; [reflexivity|].
    split; [reflexivity|]. split.
    + intros [|j] s' Hj; simpl in Hj; [|discriminate].
      injection Hj as <-. apply Qle_refl.
    + intros j s' Hlt. lia.
Qed.

Lemma scan_best_of (y : Q) (secs prefix : list Section) (acc : nat * option Q) :
  best_of y prefix acc ->
  best_of y (prefix ++ secs) (scan y secs (length prefix) acc).
Proof.
  revert prefix acc. induction secs as [|s rest IH]; intros prefix acc H; simpl.
  - now rewrite app_nil_r.
  - specialize (IH (prefix ++ [s]) _ (best_of_step y prefix s acc H)).
    rewrite length_app, Nat.add_1_r, <- app_assoc in IH. exact IH.
Qed.

(** The index the pass selects on a non-empty list: a position of the
    list, at minimum distance, strictly better than every earlier one. *)
Lemma scan_selects (y : Q) (secs : list Section) :
  secs <> [] ->
  exists s, secs !! fst (scan y secs 0 (0%nat, None)) = Some s
    /\ (forall j s', secs !! j = Some s' -> (distance y s <= distance y s')%Q)
    /\ (forall j s', (j < fst (scan y secs 0 (0%nat, None)))%nat ->
                     secs !! j = Some s' -> (distance y s < distance y s')%Q).
Proof.
  intros Hne.
  pose proof (scan_best_of y secs [] (0%nat, None) eq_refl) as H.
  simpl in H. unfold best_of in H.
  destruct (scan y secs 0 (0%nat, None)) as [a [m|]]; simpl in *.
  - destruct H as (s & Ha & -> & Hmin & Hfirst). exists s. auto.
  - contradiction.
Qed.

Lemma linkSections_length (doc : list Section) (links : list Link) :
  (length (linkSections doc links) <= length links)%nat.
Proof.
  induction links as [|l rest IH]; simpl; [lia|].
  destruct (resolve doc l); simpl; lia.
Qed.

Lemma linkSections_imap (doc : list Section) (g : nat -> Link -> Link)
    (links : list Link) :
  (forall i l, href (g i l) = href l) ->
  linkSections doc (imap g links) = linkSections doc links.
Proof.
  revert g. induction links as [|l rest IH]; intros g Hg; [reflexivity|].
  cbn [imap linkSections].
  replace (resolve doc (g 0%nat l)) with (resolve doc l)
    by (unfold resolve; now rewrite Hg).
  rewrite IH; [reflexivity|]. intros i l'. apply Hg.
Qed.

Lemma linkSections_restyle (doc : list Section) (a : nat) (links : list Link) :
  linkSections doc (imap (restyle a) links) = linkSections doc links.
Proof. apply linkSections_imap. reflexivity. Qed.

Lemma setup_linked (p : Page) (y : Q) : linked (setup p y).
Proof. reflexivity. Qed.

Lemma scrolled_linked (y : Q) (st : State) : linked st -> linked (scrolled y st).
Proof. intros H. exact H. Qed.

Lemma updateHighlighting_linked (st : State) :
  linked st -> linked (updateHighlighting st).
Proof.
  unfold linked, updateHighlighting. intros H.
  destruct (sections st) eqn:E; [now rewrite E|].
  cbn [sections document navLinks]. rewrite linkSections_restyle. exact H.
Qed.

Lemma activeStyle_not_inactive : activeStyle <> inactiveStyle.
Proof. discriminate. Qed.

(** What one highlighting pass has to achieve on a state with at least one
    resolved section: the section at [activeIndex] minimises the distance
    between the trigger point and its top edge, every earlier section is
    strictly farther, and after the pass the link at that index, and no
    other link, carries the active style. *)
Definition marks_nearest (st : State) : Prop :=
  let y := scrollY st in
  let a := activeIndex st in
  exists s l,
    sections st !! a = Some s
    /\ navLinks (updateHighlighting st) !! a = Some l
    /\ style l = activeStyle
    /\ (forall j s', sections st !! j = Some s' ->
          (Qabs (triggerPoint y - top s) <= Qabs (triggerPoint y - top s'))%Q)
    /\ (forall j s', (j < a)%nat -> sections st !! j = Some s' ->
          (Qabs (triggerPoint y - top s) < Qabs (triggerPoint y - top s'))%Q)
    /\ (forall i l', navLinks (updateHighlighting st) !! i = Some l' ->
          (style l' = activeStyle <-> i = a)
          /\ (i <> a -> style l' = inactiveStyle))
    /\ length (navLinks (updateHighlighting st)) = length (navLinks st)
    /\ sections (updateHighlighting st) = sections st.

(** C3: for every scroll position, a highlighting pass over a non-empty
    list of resolved sections marks as active exactly the link at the index
    of the section whose top edge is nearest to the trigger point (scroll
    position plus the highlight offset), the first such section on a tie;
    with no resolved section the pass leaves the state as it is. *)
Theorem highlighting_selects_nearest_section (st : State) :
  linked st ->
  match sections st with
  | [] => updateHighlighting st = st
  | _ :: _ => marks_nearest st
  end.
Proof.
  intros Hlinked.
  destruct (sections st) as [|s0 rest] eqn:Esec.
  { unfold updateHighlighting. now rewrite Esec. }
  assert (Hne : sections st <> []) by (rewrite Esec; discriminate).
  destruct (scan_selects (scrollY st) (sections st) Hne)
    as (s & Ha & Hmin & Hfirst).
  fold (activeIndex st) in Ha, Hfirst.
  assert (Hlen : (activeIndex st < length (navLinks st))%nat).
  { apply lookup_lt_Some in Ha. rewrite Hlinked in Ha.
    pose proof (linkSections_length (document st) (navLinks st)). lia. }
  destruct (lookup_lt_is_Some_2 _ _ Hlen) as [l Hl].
  assert (Hnav : navLinks (updateHighlighting st)
                 = imap (restyle (activeIndex st)) (navLinks st)).
  { unfold updateHighlighting. now rewrite Esec. }
  assert (Hsec : sections (updateHighlighting st) = sections st).
  { unfold updateHighlighting. now rewrite Esec. }
  unfold marks_nearest. rewrite Hnav.
  exists s, (restyle (activeIndex st) (activeIndex st) l).
  split; [exact Ha|].
  split; [rewrite list_lookup_imap, Hl; reflexivity|].
  split; [unfold restyle; simpl; now rewrite Nat.eqb_refl|].
  split.
  { intros j s' Hj. rewrite <- !distance_top. now apply Hmin with j. }
  split.
  { intros j s' Hlt Hj. rewrite <- !distance_top. now apply Hfirst with j. }
  split.
  { intros i l' Hi. rewrite list_lookup_imap in Hi.
    destruct (navLinks st !! i) as [l0|]; [|discriminate].
    injection Hi as <-. unfold restyle; simpl.
    destruct (Nat.eqb_spec i (activeIndex st)) as [->|Hneq].
    - split; [tauto|]. intros Hc. now contradiction Hc.
    - split; [|reflexivity]. split; [|tauto].
      intros Hc. symmetry in Hc. now apply activeStyle_not_inactive in Hc. }
  split; [apply length_imap|exact Hsec].
Qed.

(** A page with three header links, the second of which points at a
    missing element, scrolled to 500. *)
Definition demo : State :=
  setup
    {| headerNavLinks :=
         [ {| href := Some "#about"; style := inactiveStyle |};
           {| href := Some "#missing"; style := inactiveStyle |};
           {| href := Some "#projects"; style := inactiveStyle |} ];
       headerLinks := [];
       fragmentLinks := [];
       elements :=
         [ {| id := "about"; top := 0; offsetTop := 0 |};
           {| id := "projects"; top := 700; offsetTop := 700 |} ] |}
    500.

Lemma highlighting_selects_nearest_section_witness :
  linked demo /\ marks_nearest demo.
Proof.
  split; [reflexivity|].
  exact (highlighting_selects_nearest_section demo eq_refl).
Defined.

(** *** Clicks on navigation links *)

(** The default action is prevented exactly when the link resolves. *)
Lemma onClick_prevented (b : Browser) (l : Link) (st : State) :
  defaultPrevented (onClick b l st) = true
  <-> is_Some (resolve (document st) l).
Proof.
  unfold onClick. destruct (resolve (document st) l) as [s|].
  - split; [intros _; now exists s|intros _].
    destruct (scrollIntoView_throws b); reflexivity.
  - split; [discriminate|]. intros [s Hs]. discriminate Hs.
Qed.

(** Where [scrollIntoView] is available the viewport comes to rest on the
    top edge of the section itself. *)
Lemma onClick_scrollIntoView (b : Browser) (l : Link) (st : State) (s : Section) :
  scrollIntoView_throws b = false ->
  resolve (document st) l = Some s ->
  scrollCall (onClick b l st) = Some (ScrollIntoView s)
  /\ settled (onClick b l st) = top s.
Proof.
  intros Hb Hs. unfold settled, onClick. rewrite Hs, Hb. split; reflexivity.
Qed.

(** The fallback path subtracts the header offset. *)
Lemma onClick_fallback (b : Browser) (l : Link) (st : State) (s : Section) :
  scrollIntoView_throws b = true ->
  getBoundingClientRect_throws b = false ->
  resolve (document st) l = Some s ->
  (settled (onClick b l st) == top s - headerOffset CONFIG)%Q.
Proof.
  intros Hb Hr Hs. unfold settled, onClick. rewrite Hs, Hb, Hr. simpl.
  destruct (scrollTo_options_throws b); simpl; unfold rectTop; ring.
Qed.

Definition modernBrowser : Browser :=
  {| scrollIntoView_throws := false;
     getBoundingClientRect_throws := false;
     scrollTo_options_throws := false |}.

Definition legacyBrowser : Browser :=
  {| scrollIntoView_throws := true;
     getBoundingClientRect_throws := false;
     scrollTo_options_throws := false |}.

Definition projectsLink : Link :=
  {| href := Some "#projects"; style := inactiveStyle |}.

Definition missingLink : Link :=
  {| href := Some "#missing"; style := inactiveStyle |}.

(** C7, on a click on the link to the section "projects", whose top edge is
    at 700: the default action is prevented (and it is not for the link to a
    missing element), but in a browser with [scrollIntoView] the viewport
    comes to rest at 700, which is 80 away from the top edge minus the header
    offset, 620; only the fallback path, taken when [scrollIntoView] throws,
    ends at 620. *)
Theorem click_scroll_misses_header_offset :
  let o := onClick modernBrowser projectsLink demo in
  let o' := onClick legacyBrowser projectsLink demo in
  defaultPrevented o = true
  /\ defaultPrevented (onClick modernBrowser missingLink demo) = false
  /\ scrollCall o
     = Some (ScrollIntoView {| id := "projects"; top := 700; offsetTop := 700 |})
  /\ (settled o == 700)%Q
  /\ (Qabs (settled o - (700 - headerOffset CONFIG)) == 80)%Q
  /\ (settled o' == 700 - headerOffset CONFIG)%Q
  /\ (settled o' == 620)%Q.
Proof. cbv zeta. repeat split. Qed.

End ScrollNavFacts.


(** ** Certificate gallery *)

Module CertificateFacts.
Import Certificates.

Lemma Math_max_Qmax (x y : Q) : (JS.Math_max x y == Qmax x y)%Q.
Proof.
  unfold JS.Math_max. destruct (Qle_bool x y) eqn:E.
  - apply Qle_bool_iff in E. symmetry. now apply Q.max_r.
  - symmetry. apply Q.max_l. apply Qlt_le_weak, Qnot_le_lt.
    intros H. apply Qle_bool_iff in H. congruence.
Qed.

Lemma Math_min_Qmin (x y : Q) : (JS.Math_min x y == Qmin x y)%Q.
Proof.
  unfold JS.Math_min. destruct (Qle_bool x y) eqn:E.
  - apply Qle_bool_iff in E. symmetry. now apply Q.min_l.
  - symmetry. apply Q.min_r. apply Qlt_le_weak, Qnot_le_lt.
    intros H. apply Qle_bool_iff in H. congruence.
Qed.

(** The manager once the given array has been fetched into a container of
    width [w]. *)
Definition loaded (w : Z) (array : list Certificate) : State :=
  loadCertificates (Fetch.Replied 200 (Some array))
                   (createModal (create "/static/data/cert.json" w [])).

(** The width the sizing rule assigns to each of [n] cards, [n] at least 2,
    in a container of width [w]: the available width shared out evenly, but
    never less than 120. *)
Definition shared_width (w : Z) (n : nat) : Q :=
  Qmax 120 ((inject_Z w - 24 - 16 * (inject_Z (Z.of_nat n) - 1))
            / inject_Z (Z.of_nat n)).

(** C2: in a container of width 800 five records get cards of width
    max(120, (800 - 24 - 4 * 16) / 5) = 142.4, a single record gets a card of
    width min(300, 800 - 24) = 300, and for two or more records the width is
    max(120, (containerWidth - 24 - 16 * (n - 1)) / n). *)
Theorem calculateCardWidth_formula :
  (forall c1 c2 c3 c4 c5 : Certificate,
      calculateCardWidth (loaded 800 [c1; c2; c3; c4; c5]) == 142.4
      /\ 142.4 == Qmax 120 ((800 - 24 - 64) / 5))%Q
  /\ (forall c : Certificate,
         calculateCardWidth (loaded 800 [c]) == 300
         /\ 300 == Qmin 300 (800 - 24))%Q
  /\ (forall st : State,
         (2 <= length (certificates st))%nat ->
         (calculateCardWidth st
          == shared_width (offsetWidth st) (length (certificates st)))%Q).
Proof.
  split; [|split].
  - intros. split; reflexivity.
  - intros. split; reflexivity.
  - intros st Hn. unfold calculateCardWidth, shared_width.
    destruct (length (certificates st)) as [|[|n]] eqn:E; [lia|lia|].
    apply Math_max_Qmax.
Qed.

Lemma calculateCardWidth_formula_witness :
  (2 <= length (certificates (loaded 1000 [Build_Certificate None None None None;
                                           Build_Certificate None None None None])))%nat
  /\ (calculateCardWidth (loaded 1000 [Build_Certificate None None None None;
                                       Build_Certificate None None None None])
      == 480)%Q.
Proof.
  split; [simpl; lia|].
  rewrite (proj2 (proj2 calculateCardWidth_formula)) by (simpl; lia).
  reflexivity.
Defined.

End CertificateFacts.


(** ** Project gallery *)

Module ProjectFacts.
Import Projects.

Lemma renderProjects_projects (st : State) :
  projects (renderProjects st) = projects st.
Proof.
  unfold renderProjects.
  destruct (projectSection st) as [s|]; [|reflexivity].
  destruct (inner s); reflexivity.
Qed.

Lemma renderProjects_modal (st : State) :
  modal (renderProjects st) = modal st.
Proof.
  unfold renderProjects.
  destruct (projectSection st) as [s|]; [|reflexivity].
  destruct (inner s); reflexivity.
Qed.

(** The cards a render leaves in the inner container, when the page has
    one. *)
Lemma renderProjects_rendered (st : State) (s : Section) (old : list Node) :
  projectSection st = Some s -> inner s = Some old ->
  rendered (renderProjects st)
  = imap (fun index project => CardNode (createProjectCard project index))
         (projects st).
Proof.
  intros Hs Hi. unfold renderProjects, rendered. rewrite Hs, Hi. reflexivity.
Qed.

Lemma or_prop_truthy (a b : option string) :
  JS.truthy (JS.or_prop a b) = JS.truthy a || JS.truthy b.
Proof.
  unfold JS.or_prop. destruct (JS.truthy a) eqn:E; [exact E|reflexivity].
Qed.

(** C5: a project with a Hugging Face link under either key and no github
    field gets a card with exactly one button, the Hugging Face one, and its
    overlay shows the Hugging Face link block and keeps the GitHub block
    hidden; whenever the github field holds a link the card's button is the
    GitHub one. *)
Theorem huggingface_only_project :
  (forall (project : Project) (index : nat),
      JS.truthy (github project) = true ->
      buttons (createProjectCard project index) = [GithubBtn])
  /\ (forall (project : Project) (index : nat) (st : State) (m : Modal),
         github project = None ->
         JS.truthy (huggingface project) = true
         \/ JS.truthy (hugging_face project) = true ->
         modal st = Some m ->
         buttons (createProjectCard project index) = [HuggingfaceBtn]
         /\ exists st' m',
             showProjectModal (Some project) st = JS.Ok st'
             /\ modal st' = Some m'
             /\ hidden m' = false
             /\ githubHidden m' = true
             /\ huggingfaceHidden m' = false
             /\ Some (huggingfaceHref m')
                = JS.or_prop (huggingface project) (hugging_face project)).
Proof.
  split.
  - intros project index Hg. unfold createProjectCard, buttonHTML; simpl.
    now rewrite Hg.
  - intros project index st m Hg Hhf Hm.
    assert (Ht : JS.truthy (JS.or_prop (huggingface project) (hugging_face project))
                 = true).
    { rewrite or_prop_truthy. destruct Hhf as [-> | ->]; [reflexivity|].
      apply orb_true_r. }
    split.
    + unfold createProjectCard, buttonHTML; simpl. now rewrite Hg, Ht.
    + unfold showProjectModal. rewrite Hm, Hg, Ht. simpl.
      eexists _, _. split; [reflexivity|]. simpl. split; [reflexivity|].
      repeat split.
      destruct (JS.or_prop (huggingface project) (hugging_face project));
        [reflexivity|discriminate].
Qed.

Definition bothLinks : Project :=
  {| title := Some "Segmenter"; description := Some "Image segmentation";
     image := None; github := Some "https://github.com/u/segmenter";
     huggingface := Some "https://huggingface.co/u/segmenter";
     hugging_face := None |}.

Definition modelOnly : Project :=
  {| title := Some "Summariser"; description := None; image := None;
     github := None; huggingface := None;
     hugging_face := Some "https://huggingface.co/u/summariser" |}.

Lemma huggingface_only_project_witness :
  buttons (createProjectCard bothLinks 0) = [GithubBtn]
  /\ buttons (createProjectCard modelOnly 1) = [HuggingfaceBtn].
Proof.
  split.
  - exact (proj1 huggingface_only_project bothLinks 0%nat eq_refl).
  - exact (proj1 (proj2 huggingface_only_project modelOnly 1%nat
                        (createModal (create None)) _
                        eq_refl (or_intror eq_refl) eq_refl)).
Defined.

(** C10: [removeProject] with an index that is not a position of the array
    changes nothing, and in particular renders nothing; with a position of
    the array it removes the record at that position, keeps the others in
    order, and renders the remaining records. *)
Theorem removeProject_by_index (index : Z) (st : State) :
  ((index < 0 \/ Z.of_nat (length (projects st)) <= index)%Z ->
   removeProject index st = st)
  /\ ((0 <= index < Z.of_nat (length (projects st)))%Z ->
      let i := Z.to_nat index in
      let st' := removeProject index st in
      st' = renderProjects (set_projects (delete i (projects st)) st)
      /\ projects st' = delete i (projects st)
      /\ S (length (projects st')) = length (projects st)
      /\ (forall j, (j < i)%nat -> projects st' !! j = projects st !! j)
      /\ (forall j, (i <= j)%nat -> projects st' !! j = projects st !! S j)
      /\ (forall s old, projectSection st = Some s -> inner s = Some old ->
            rendered st'
            = imap (fun k project => CardNode (createProjectCard project k))
                   (projects st'))).
Proof.
  unfold removeProject. split.
  - intros Hout.
    destruct (Z.leb_spec 0 index); destruct (Z.ltb_spec index (Z.of_nat (length (projects st))));
      simpl; try reflexivity; lia.
  - intros [Hlo Hhi].
    destruct (Z.leb_spec 0 index); [|lia].
    destruct (Z.ltb_spec index (Z.of_nat (length (projects st)))); [|lia].
    cbn [andb]. cbv zeta.
    assert (Hp : projects (renderProjects
                             (set_projects (delete (Z.to_nat index) (projects st)) st))
                 = delete (Z.to_nat index) (projects st))
      by now rewrite renderProjects_projects.
    split; [reflexivity|]. split; [exact Hp|]. rewrite Hp.
    split.
    { rewrite length_delete.
      - destruct (length (projects st)); lia.
      - apply lookup_lt_is_Some_2. lia. }
    split; [intros j Hj; now apply list_lookup_delete_lt|].
    split; [intros j Hj; now apply list_lookup_delete_ge|].
    intros s old Hs Hi.
    now rewrite (renderProjects_rendered _ s old).
Qed.

Lemma removeProject_by_index_witness :
  removeProject 2 (set_projects [bothLinks; modelOnly] (create None))
  = set_projects [bothLinks; modelOnly] (create None)
  /\ projects (removeProject 0 (set_projects [bothLinks; modelOnly] (create None)))
     = [modelOnly].
Proof.
  split.
  - apply (proj1 (removeProject_by_index 2 _)). right. simpl. lia.
  - apply (proj2 (removeProject_by_index 0 (set_projects [bothLinks; modelOnly]
                                                         (create None)))).
    simpl. lia.
Defined.

End ProjectFacts.


(** ** Both galleries: loading, rendering, the detail overlay *)

Module GalleryFacts.

Lemma map_imap {A B C : Type} (g : B -> C) (h : A -> C) (l : list A) :
  forall f : nat -> A -> B,
    (forall i x, g (f i x) = h x) -> map g (imap f l) = map h l.
Proof.
  induction l as [|x l IH]; intros f Hf; [reflexivity|].
  cbn [imap map]. rewrite Hf. f_equal. apply IH. intros i y. apply Hf.
Qed.

Lemma certificate_cards_imap (l : list Certificates.Certificate) :
  forall f : nat -> Certificates.Certificate -> Certificates.Card,
    Certificates.cards (imap (fun i c => Certificates.CardNode (f i c)) l)
    = imap f l.
Proof.
  induction l as [|x l IH]; intros f; [reflexivity|].
  unfold Certificates.cards in *. simpl. f_equal.
  exact (IH (f ∘ S)).
Qed.

Lemma project_cards_imap (l : list Projects.Project) :
  forall f : nat -> Projects.Project -> Projects.Card,
    Projects.cards (imap (fun i p => Projects.CardNode (f i p)) l) = imap f l.
Proof.
  induction l as [|x l IH]; intros f; [reflexivity|].
  unfold Projects.cards in *. simpl. f_equal.
  exact (IH (f ∘ S)).
Qed.

(** *** Failed loads *)

Lemma loadCertificates_failure (r : Fetch.Response Certificates.Certificate)
    (st : Certificates.State) :
  Fetch.body r = None ->
  Certificates.container (Certificates.loadCertificates r st)
  = [Certificates.ErrorParagraph
       (Certificates.errorText (Certificates.jsonPath st))]
  /\ Certificates.certificates (Certificates.loadCertificates r st)
     = Certificates.certificates st.
Proof.
  intros H. unfold Certificates.loadCertificates. rewrite H. split; reflexivity.
Qed.

(** After a failed load [init] goes on to render, and the render empties the
    container. *)
Lemma init_failure (r : Fetch.Response Certificates.Certificate)
    (path : string) (w : Z) (children : list Certificates.Node) :
  Fetch.body r = None ->
  Certificates.container (Certificates.init r (Certificates.create path w children))
  = []
  /\ Certificates.certificates
       (Certificates.init r (Certificates.create path w children)) = [].
Proof.
  intros H. unfold Certificates.init, Certificates.loadCertificates.
  rewrite H. split; reflexivity.
Qed.

(** The project gallery renders on success only: after a failed load the
    message is in the project section and the record set is empty. *)
Lemma initialize_failure (r : Fetch.Response Projects.Project)
    (s : Projects.Section) :
  Fetch.body r = None ->
  let st := Projects.initialize r (Projects.create (Some s)) in
  Projects.projects st = []
  /\ Projects.projectSection st
     = Some {| Projects.inner := Projects.inner s;
               Projects.appended :=
                 Projects.appended s ++ [Projects.ErrorDiv Projects.loadFailure] |}.
Proof.
  intros H. unfold Projects.initialize, Projects.loadProjects.
  rewrite H. split; reflexivity.
Qed.

(** C1, on a certificate fetch answered by HTTP 404: [loadCertificates]
    writes the error paragraph into the container and leaves the record set
    empty, but when [init] completes the container is empty: the paragraph
    is gone, and no card is there.  On the same answer the project gallery
    ends with its message in the project section, no record and no card. *)
Theorem failed_certificate_load_loses_message :
  let r := Fetch.Replied 404 None in
  let st0 := Certificates.create "/static/data/cert.json" 800 [] in
  let loaded := Certificates.loadCertificates r (Certificates.createModal st0) in
  let done := Certificates.init r st0 in
  let page := {| Projects.inner := Some []; Projects.appended := [] |} in
  let pdone := Projects.initialize (Fetch.Replied 404 None)
                                   (Projects.create (Some page)) in
  Certificates.container loaded
  = [Certificates.ErrorParagraph
       "Failed to load certificates. Please check /static/data/cert.json."]
  /\ Certificates.certificates done = []
  /\ Certificates.cards (Certificates.container done) = []
  /\ existsb Certificates.isError (Certificates.container done) = false
  /\ Certificates.container done = []
  /\ Projects.errors pdone = [Projects.ErrorDiv Projects.loadFailure]
  /\ Projects.projects pdone = []
  /\ Projects.cards (Projects.rendered pdone) = [].
Proof. cbv zeta. repeat split. Qed.

(** *** Rendering twice *)

(** Something else rewrites the children of the inner project container,
    when the page has one. *)
Definition overwrite (junk : list Projects.Node) (st : Projects.State)
    : Projects.State :=
  match Projects.projectSection st with
  | Some s =>
      match Projects.inner s with
      | Some _ =>
          Projects.set_section
            (Some {| Projects.inner := Some junk;
                     Projects.appended := Projects.appended s |}) st
      | None => st
      end
  | None => st
  end.

Lemma calculateCardWidth_set_container (junk : list Certificates.Node)
    (st : Certificates.State) :
  Certificates.calculateCardWidth (Certificates.set_container junk st)
  = Certificates.calculateCardWidth st.
Proof. reflexivity. Qed.

Lemma renderCertificates_again (junk : list Certificates.Node)
    (st : Certificates.State) :
  Certificates.renderCertificates
    (Certificates.set_container junk (Certificates.renderCertificates st))
  = Certificates.renderCertificates st.
Proof.
  unfold Certificates.renderCertificates at 1.
  cbn [Certificates.certificates Certificates.jsonPath Certificates.offsetWidth
       Certificates.containerStyle Certificates.modal Certificates.bodyOverflow
       Certificates.resizeListeners Certificates.set_container
       Certificates.renderCertificates].
  unfold Certificates.calculateCardWidth at 1 2.
  cbn [Certificates.certificates Certificates.offsetWidth].
  fold (Certificates.calculateCardWidth st).
  unfold Certificates.renderCertificates.
  f_equal.
  rewrite (assoc_L (∪)). now rewrite (idemp_L (∪)).
Qed.

Lemma renderCertificates_text (st : Certificates.State) :
  map Certificates.textContent
      (Certificates.container (Certificates.renderCertificates st))
  = map (fun cert => (JS.or_str (Certificates.name cert) ""
                      ++ JS.or_str (Certificates.issuer cert) "")%string)
        (Certificates.certificates st).
Proof.
  unfold Certificates.renderCertificates. cbn [Certificates.container].
  apply map_imap. reflexivity.
Qed.

Lemma renderCertificates_cards (st : Certificates.State) :
  length (Certificates.cards
            (Certificates.container (Certificates.renderCertificates st)))
  = length (Certificates.certificates st).
Proof.
  unfold Certificates.renderCertificates. cbn [Certificates.container].
  rewrite certificate_cards_imap. apply length_imap.
Qed.

Lemma renderProjects_again (junk : list Projects.Node) (st : Projects.State) :
  Projects.renderProjects (overwrite junk (Projects.renderProjects st))
  = Projects.renderProjects st.
Proof.
  destruct st as [ps [[[old|] app]|] pc m bo op li]; reflexivity.
Qed.

(** C6: with the records unchanged, a second render gives the same result as
    the first whatever was put into the container in between: the same
    state for either gallery, and for the certificate gallery the same
    number of cards and the same texts even when the container's width has
    changed as well. *)
Theorem render_is_idempotent :
  (forall (st : Certificates.State) (junk : list Certificates.Node),
      Certificates.renderCertificates
        (Certificates.set_container junk (Certificates.renderCertificates st))
      = Certificates.renderCertificates st)
  /\ (forall (st : Certificates.State) (junk : list Certificates.Node) (w : Z),
         let once := Certificates.renderCertificates st in
         let twice :=
           Certificates.renderCertificates
             (Certificates.set_offsetWidth w (Certificates.set_container junk once)) in
         length (Certificates.cards (Certificates.container twice))
         = length (Certificates.cards (Certificates.container once))
         /\ map Certificates.textContent (Certificates.container twice)
            = map Certificates.textContent (Certificates.container once)
         /\ length (Certificates.container once)
            = length (Certificates.certificates st))
  /\ (forall (st : Projects.State) (junk : list Projects.Node),
         let once := Projects.renderProjects st in
         let twice := Projects.renderProjects (overwrite junk once) in
         twice = once
         /\ length (Projects.cards (Projects.rendered twice))
            = length (Projects.cards (Projects.rendered once))
         /\ map Projects.textContent (Projects.rendered twice)
            = map Projects.textContent (Projects.rendered once)).
Proof.
  split; [|split].
  - intros st junk. apply renderCertificates_again.
  - intros st junk w once twice. subst once twice.
    rewrite !renderCertificates_cards, !renderCertificates_text.
    split; [reflexivity|]. split; [reflexivity|].
    unfold Certificates.renderCertificates. cbn [Certificates.container].
    apply length_imap.
  - intros st junk once twice. subst once twice.
    rewrite renderProjects_again. repeat split.
Qed.

(** *** The detail overlay *)

(** Every absent optional field shows as empty: an absent image or
    description gives an empty image URL or description text, and an absent
    link keeps its block out of the overlay. *)
Definition absent_fields_render_empty : Prop :=
  (forall (cert : Certificates.Certificate) (st : Certificates.State)
          (m : Certificates.Modal),
      Certificates.modal st = Some m ->
      exists st' m',
        Certificates.showModal cert st = JS.Ok st'
        /\ Certificates.modal st' = Some m'
        /\ (Certificates.image cert = None ->
            Certificates.modalImage m' = "url('')")
        /\ (Certificates.description cert = None ->
            Certificates.modalDesc m' = ""))
  /\ (forall (project : Projects.Project) (st : Projects.State)
             (m : Projects.Modal),
         Projects.modal st = Some m ->
         exists st' m',
           Projects.showProjectModal (Some project) st = JS.Ok st'
           /\ Projects.modal st' = Some m'
           /\ (Projects.image project = None ->
               Projects.modalImage m' = "url('')")
           /\ (Projects.description project = None ->
               Projects.modalDescription m' = "")
           /\ (Projects.github project = None ->
               Projects.githubHidden m' = true)
           /\ (Projects.huggingface project = None ->
               Projects.hugging_face project = None ->
               Projects.huggingfaceHidden m' = true)).

Definition bare : Certificates.Certificate :=
  {| Certificates.name := Some "Deep Learning";
     Certificates.issuer := Some "Coursera";
     Certificates.image := None;
     Certificates.description := None |}.

(** C8 as stated fails: a certificate without a description opens with the
    text "No description available." in the description paragraph. *)
Lemma absent_description_is_not_empty : ~ absent_fields_render_empty.
Proof.
  intros [H _].
  destruct (H bare (Certificates.createModal
                      (Certificates.create "/static/data/cert.json" 800 []))
              _ eq_refl)
    as (st' & m' & Hshow & Hm & _ & Hdesc).
  simpl in Hshow. injection Hshow as <-. simpl in Hm. injection Hm as <-.
  specialize (Hdesc eq_refl). discriminate Hdesc.
Qed.

(** C8, amended: opening the overlay for a record with an absent optional
    field never raises an error; an absent certificate image gives an empty
    image URL and an absent certificate description the text "No description
    available."; an absent project image gives the placeholder image, an
    absent project description an empty text, and an absent project link
    keeps its block hidden. *)
Theorem absent_fields_have_defaults :
  (forall (cert : Certificates.Certificate) (st : Certificates.State)
          (m : Certificates.Modal),
      Certificates.modal st = Some m ->
      exists st' m',
        Certificates.showModal cert st = JS.Ok st'
        /\ Certificates.modal st' = Some m'
        /\ Certificates.display m' = "flex"
        /\ (Certificates.image cert = None ->
            Certificates.modalImage m' = "url('')")
        /\ (Certificates.description cert = None ->
            Certificates.modalDesc m' = "No description available."))
  /\ (forall (project : Projects.Project) (st : Projects.State)
             (m : Projects.Modal),
         Projects.modal st = Some m ->
         exists st' m',
           Projects.showProjectModal (Some project) st = JS.Ok st'
           /\ Projects.modal st' = Some m'
           /\ Projects.hidden m' = false
           /\ (Projects.image project = None ->
               Projects.modalImage m'
               = ("url('" ++ Projects.placeholder ++ "')")%string)
           /\ (Projects.description project = None ->
               Projects.modalDescription m' = "")
           /\ (Projects.github project = None ->
               Projects.githubHidden m' = true)
           /\ (Projects.huggingface project = None ->
               Projects.hugging_face project = None ->
               Projects.huggingfaceHidden m' = true)).
Proof.
  split.
  - intros cert st m Hm. unfold Certificates.showModal. rewrite Hm.
    eexists _, _. split; [reflexivity|]. cbn [Certificates.modal].
    split; [reflexivity|]. cbn [Certificates.display Certificates.modalImage
                                 Certificates.modalDesc].
    split; [reflexivity|]. split; intros ->; reflexivity.
  - intros project st m Hm. unfold Projects.showProjectModal. rewrite Hm.
    eexists _, _. split; [reflexivity|].
    cbn [Projects.modal Projects.set_modal].
    split; [reflexivity|].
    cbn [Projects.hidden Projects.modalImage Projects.modalDescription
         Projects.githubHidden Projects.huggingfaceHidden].
    split; [reflexivity|].
    split; [intros ->; reflexivity|].
    split; [intros ->; reflexivity|].
    split; [intros ->; reflexivity|].
    intros -> ->. reflexivity.
Qed.

Definition untitled : Projects.Project :=
  {| Projects.title := Some "Portfolio"; Projects.description := None;
     Projects.image := None; Projects.github := None;
     Projects.huggingface := None; Projects.hugging_face := None |}.

Lemma absent_fields_have_defaults_witness :
  (exists st',
      Certificates.showModal bare
        (Certificates.createModal
           (Certificates.create "/static/data/cert.json" 800 []))
      = JS.Ok st')
  /\ (exists st',
         Projects.showProjectModal (Some untitled)
           (Projects.createModal (Projects.create None))
         = JS.Ok st').
Proof.
  split.
  - destruct (proj1 absent_fields_have_defaults bare
                (Certificates.createModal
                   (Certificates.create "/static/data/cert.json" 800 []))
                _ eq_refl) as (st' & _ & H & _).
    exists st'. exact H.
  - destruct (proj2 absent_fields_have_defaults untitled
                (Projects.createModal (Projects.create None)) _ eq_refl)
      as (st' & _ & H & _).
    exists st'. exact H.
Defined.

(** *** Keyboard activation *)







End GalleryFacts.


(** ** Mobile drawer controller *)

Module DrawerFacts.
Import Drawer.

(** The part of the state the mounting and unmounting of the apparatus
    reads and writes. *)
Record Core := {
  c_header : option nat;
  c_button : option nat;
  c_drawer : option nat;
  c_backdrop : option nat;
  c_body : list Node;
  c_next : nat
}.

Definition core (st : State) : Core :=
  {| c_header := header st; c_button := hamburgerButton st;
     c_drawer := drawer st; c_backdrop := backdrop st;
     c_body := body st; c_next := nextNode st |}.

(** The mode flags, the width and the number of resize listeners. *)
Definition mode (st : State) : bool * bool * Z * nat :=
  (isMobile st, isSmallMobile st, innerWidth st, resizeListeners st).

(** The operations of the handler, as they act on the core. *)
Definition removeButtonC (c : Core) : Core :=
  match c_button c with
  | Some b =>
      {| c_header := c_header c; c_button := None; c_drawer := c_drawer c;
         c_backdrop := c_backdrop c; c_body := detach b (c_body c);
         c_next := c_next c |}
  | None => c
  end.

Definition createButtonC (c : Core) : Core :=
  let c1 := removeButtonC c in
  {| c_header := c_header c1; c_button := Some (c_next c1);
     c_drawer := c_drawer c1; c_backdrop := c_backdrop c1;
     c_body := c_body c1
               ++ [{| nodeId := c_next c1; kind := Hamburger; shown := false |}];
     c_next := S (c_next c1) |}.

Definition removeDrawerC (c : Core) : Core :=
  let body1 := match c_drawer c with
               | Some d => detach d (c_body c)
               | None => c_body c
               end in
  {| c_header := c_header c; c_button := c_button c; c_drawer := None;
     c_backdrop := None;
     c_body := match c_backdrop c with
               | Some k => detach k body1
               | None => body1
               end;
     c_next := c_next c |}.

Definition createDrawerC (c : Core) : Core :=
  let c1 := removeDrawerC c in
  {| c_header := c_header c1; c_button := c_button c1;
     c_drawer := Some (S (c_next c1)); c_backdrop := Some (c_next c1);
     c_body := c_body c1
               ++ [{| nodeId := c_next c1; kind := Backdrop; shown := false |};
                   {| nodeId := S (c_next c1); kind := DrawerPanel;
                      shown := false |}];
     c_next := S (S (c_next c1)) |}.

Lemma core_removeHamburgerButton (st : State) :
  core (removeHamburgerButton st) = removeButtonC (core st)
  /\ mode (removeHamburgerButton st) = mode st
  /\ displayOf (removeHamburgerButton st) = displayOf st.
Proof.
  unfold removeHamburgerButton, removeButtonC, core, mode.
  cbn [c_button]. destruct (hamburgerButton st) eqn:E; cbn; rewrite ?E;
    repeat split.
Qed.

Lemma core_createHamburgerButton (st : State) :
  core (createHamburgerButton st) = createButtonC (core st)
  /\ mode (createHamburgerButton st) = mode st
  /\ displayOf (createHamburgerButton st) = displayOf st.
Proof.
  destruct (core_removeHamburgerButton st) as (Hc & Hm & Hd).
  unfold createHamburgerButton, createButtonC. rewrite <- Hc.
  generalize dependent (removeHamburgerButton st). intros s1 _ Hm Hd.
  unfold mode in *. cbn. injection Hm as -> -> -> ->. rewrite Hd.
  repeat split.
Qed.

Lemma core_removeDrawer (st : State) :
  core (removeDrawer st) = removeDrawerC (core st)
  /\ mode (removeDrawer st) = mode st
  /\ displayOf (removeDrawer st) = displayOf st.
Proof. unfold removeDrawer, removeDrawerC, core, mode. repeat split. Qed.

Lemma core_createDrawer (st : State) :
  core (createDrawer st) = createDrawerC (core st)
  /\ mode (createDrawer st) = mode st
  /\ displayOf (createDrawer st) = displayOf st.
Proof.
  destruct (core_removeDrawer st) as (Hc & Hm & Hd).
  unfold createDrawer, createDrawerC. rewrite <- Hc.
  generalize dependent (removeDrawer st). intros s1 _ Hm Hd.
  unfold mode in *. cbn. injection Hm as -> -> -> ->. rewrite Hd.
  repeat split.
Qed.

Lemma core_setupEventListeners (st : State) :
  core (setupEventListeners st) = core st
  /\ mode (setupEventListeners st) = mode st
  /\ displayOf (setupEventListeners st) = displayOf st.
Proof. repeat split. Qed.

Lemma core_hideOriginalHeader (st : State) :
  core (hideOriginalHeader st) = core st
  /\ mode (hideOriginalHeader st) = mode st
  /\ (forall h, header st = Some h -> displayOf (hideOriginalHeader st) h = "none").
Proof.
  unfold hideOriginalHeader. destruct (header st) as [h|] eqn:E.
  - repeat split; try (unfold core; cbn; now rewrite E).
    intros h' [= <-]. cbn. now rewrite Nat.eqb_refl.
  - repeat split. discriminate.
Qed.

Lemma core_showOriginalHeader (st : State) :
  core (showOriginalHeader st) = core st
  /\ mode (showOriginalHeader st) = mode st
  /\ (forall h, header st = Some h -> displayOf (showOriginalHeader st) h = "")
  /\ (header st = None -> displayOf (showOriginalHeader st) = displayOf st).
Proof.
  unfold showOriginalHeader. destruct (header st) as [h|] eqn:E.
  - repeat split; try (unfold core; cbn; now rewrite E); try discriminate.
    intros h' [= <-]. cbn. now rewrite Nat.eqb_refl.
  - repeat split. discriminate.
Qed.

Lemma core_checkMobile (options : Options) (st : State) :
  core (checkMobile options st) = core st
  /\ displayOf (checkMobile options st) = displayOf st
  /\ mode (checkMobile options st)
     = ((innerWidth st <=? mobileBreakpoint options)%Z,
        (innerWidth st <=? smallMobileBreakpoint options)%Z,
        innerWidth st, resizeListeners st).
Proof. repeat split. Qed.

Lemma core_setupResizeListener (st : State) :
  core (setupResizeListener st) = core st
  /\ displayOf (setupResizeListener st) = displayOf st
  /\ mode (setupResizeListener st)
     = (isMobile st, isSmallMobile st, innerWidth st, S (resizeListeners st)).
Proof. repeat split. Qed.

Lemma eqb_ne (a b : nat) : a <> b -> Nat.eqb a b = false.
Proof. intros H. now apply Nat.eqb_neq. Qed.

(** The body holds the button, the backdrop and the drawer the handler
    refers to, and nothing else of the controller's. *)
Definition mountedC (c : Core) : Prop :=
  exists b k d o1 o2 o3,
    c_body c = [ {| nodeId := b; kind := Hamburger; shown := o1 |};
                 {| nodeId := k; kind := Backdrop; shown := o2 |};
                 {| nodeId := d; kind := DrawerPanel; shown := o3 |} ]
    /\ c_button c = Some b /\ c_backdrop c = Some k /\ c_drawer c = Some d
    /\ b <> k /\ b <> d /\ k <> d
    /\ (b < c_next c)%nat /\ (k < c_next c)%nat /\ (d < c_next c)%nat.

Definition unmountedC (c : Core) : Prop :=
  c_body c = [] /\ c_button c = None
  /\ c_backdrop c = None /\ c_drawer c = None.

Definition mounted (st : State) : Prop := mountedC (core st).
Definition unmounted (st : State) : Prop := unmountedC (core st).

(** Creating the button and the drawer replaces whatever was mounted by a
    fresh button, backdrop and drawer. *)
Lemma mount_core (c : Core) :
  mountedC c \/ unmountedC c ->
  mountedC (createDrawerC (createButtonC c))
  /\ c_header (createDrawerC (createButtonC c)) = c_header c.
Proof.
  destruct c as [h btn dr bk bd n].
  intros [(b & k & d & o1 & o2 & o3 & Hb & Hbtn & Hk & Hd
           & Hbk & Hbd & Hkd & Lb & Lk & Ld)
         |(Hb & Hbtn & Hk & Hd)]; cbn in *; subst.
  - unfold createDrawerC, createButtonC, removeDrawerC, removeButtonC, mountedC.
    cbn [c_header c_button c_drawer c_backdrop c_body c_next detach
         List.filter nodeId app negb].
    rewrite Nat.eqb_refl, (eqb_ne k b), (eqb_ne d b) by congruence.
    cbn [negb app List.filter nodeId].
    rewrite (eqb_ne k d), Nat.eqb_refl, (eqb_ne n d) by lia.
    cbn [negb app List.filter nodeId].
    rewrite Nat.eqb_refl, (eqb_ne n k) by lia.
    cbn [negb app List.filter nodeId].
    split; [|reflexivity].
    eexists _, _, _, _, _, _. split; [reflexivity|]. repeat split; lia.
  - unfold createDrawerC, createButtonC, removeDrawerC, removeButtonC, mountedC.
    cbn [c_header c_button c_drawer c_backdrop c_body c_next app].
    split; [|reflexivity].
    eexists _, _, _, _, _, _. split; [reflexivity|]. repeat split; lia.
Qed.

(** Removing the button and the drawer leaves nothing of the apparatus. *)
Lemma unmount_core (c : Core) :
  mountedC c \/ unmountedC c ->
  unmountedC (removeDrawerC (removeButtonC c))
  /\ c_header (removeDrawerC (removeButtonC c)) = c_header c.
Proof.
  destruct c as [h btn dr bk bd n].
  intros [(b & k & d & o1 & o2 & o3 & Hb & Hbtn & Hk & Hd
           & Hbk & Hbd & Hkd & Lb & Lk & Ld)
         |(Hb & Hbtn & Hk & Hd)]; cbn in *; subst.
  - unfold removeDrawerC, removeButtonC, unmountedC.
    cbn [c_header c_button c_drawer c_backdrop c_body c_next detach
         List.filter nodeId negb].
    rewrite Nat.eqb_refl, (eqb_ne k b), (eqb_ne d b) by congruence.
    cbn [negb List.filter nodeId].
    rewrite (eqb_ne k d), Nat.eqb_refl by congruence.
    cbn [negb List.filter nodeId]. rewrite Nat.eqb_refl. cbn [negb].
    repeat split.
  - unfold removeDrawerC, removeButtonC, unmountedC.
    cbn [c_header c_button c_drawer c_backdrop c_body c_next]. repeat split.
Qed.

(** The mobile branch of [setup] on a page with a header: a fresh
    apparatus is mounted and the header is hidden. *)
Lemma mobile_branch (st : State) (h : nat) :
  mounted st \/ unmounted st ->
  header st = Some h ->
  let st' := hideOriginalHeader
               (setupEventListeners (createDrawer (createHamburgerButton st))) in
  header st' = Some h /\ displayOf st' h = "none" /\ mounted st'
  /\ mode st' = mode st.
Proof.
  intros Hshape Hh st'. subst st'.
  destruct (core_createHamburgerButton st) as (C1 & M1 & _).
  generalize dependent (createHamburgerButton st). intros s1 C1 M1.
  destruct (core_createDrawer s1) as (C2 & M2 & _).
  generalize dependent (createDrawer s1). intros s2 C2 M2.
  destruct (core_setupEventListeners s2) as (C3 & M3 & _).
  generalize dependent (setupEventListeners s2). intros s3 C3 M3.
  destruct (core_hideOriginalHeader s3) as (C4 & M4 & D4).
  generalize dependent (hideOriginalHeader s3). intros s4 C4 M4 D4.
  destruct (mount_core (core st) Hshape) as (Hm & Hhd).
  assert (E3 : core s3 = createDrawerC (createButtonC (core st)))
    by (rewrite C3, C2, C1; reflexivity).
  assert (H3 : header s3 = Some h).
  { change (header s3) with (c_header (core s3)). rewrite E3, Hhd. exact Hh. }
  split; [|split; [|split]].
  - change (header s4) with (c_header (core s4)). rewrite C4.
    exact H3.
  - apply D4. exact H3.
  - unfold mounted. rewrite C4, E3. exact Hm.
  - rewrite M4, M3, M2, M1. reflexivity.
Qed.

(** The desktop branch of [setup]: the header the handler holds is shown
    again and nothing of the apparatus is left. *)
Lemma desktop_branch (st : State) :
  mounted st \/ unmounted st ->
  let st' := removeDrawer (removeHamburgerButton (showOriginalHeader st)) in
  unmounted st' /\ header st' = header st
  /\ (forall h, header st = Some h -> displayOf st' h = "")
  /\ (header st = None -> displayOf st' = displayOf st)
  /\ mode st' = mode st.
Proof.
  intros Hshape st'. subst st'.
  destruct (core_showOriginalHeader st) as (C1 & M1 & D1 & K1).
  generalize dependent (showOriginalHeader st). intros s1 C1 M1 D1 K1.
  destruct (core_removeHamburgerButton s1) as (C2 & M2 & D2).
  generalize dependent (removeHamburgerButton s1). intros s2 C2 M2 D2.
  destruct (core_removeDrawer s2) as (C3 & M3 & D3).
  generalize dependent (removeDrawer s2). intros s3 C3 M3 D3.
  destruct (unmount_core (core st) Hshape) as (Hu & Hhd).
  assert (E3 : core s3 = removeDrawerC (removeButtonC (core st)))
    by (rewrite C3, C2, C1; reflexivity).
  split; [|split; [|split; [|split]]].
  - unfold unmounted. rewrite E3. exact Hu.
  - change (header s3) with (c_header (core s3)). rewrite E3. exact Hhd.
  - intros h Hh. rewrite D3, D2. now apply D1.
  - intros Hh. rewrite D3, D2. now apply K1.
  - rewrite M3, M2, M1. reflexivity.
Qed.

Lemma mode_fields (st : State) (m : bool) (sm : bool) (w : Z) (n : nat) :
  mode st = (m, sm, w, n) ->
  isMobile st = m /\ isSmallMobile st = sm /\ innerWidth st = w
  /\ resizeListeners st = n.
Proof. unfold mode. intros [= -> -> -> ->]. repeat split. Qed.

Lemma shape_set_header (h : option nat) (st : State) :
  (mounted st -> mounted (set_header h st))
  /\ (unmounted st -> unmounted (set_header h st)).
Proof. split; intros H; exact H. Qed.

Section Invariant.

Variable options : Options.
Variable querySelector : string -> option nat.

(** The element [findHeader] locates on the page, if any. *)
Definition located : option nat :=
  firstMatch querySelector (headerSelectors options).

(** What every state of the controller satisfies, whatever its mode. *)
Definition wellFormed (st : State) : Prop :=
  (header st = None \/ header st = located)
  /\ ((mounted st /\ is_Some located) \/ unmounted st).

(** The mode flags agree with the width of the window. *)
Definition settledAt (st : State) : Prop :=
  isMobile st = (innerWidth st <=? mobileBreakpoint options)%Z
  /\ isSmallMobile st = (innerWidth st <=? smallMobileBreakpoint options)%Z.

(** What the mode of a state says about the page. *)
Definition presents (st : State) : Prop :=
  (isMobile st = true ->
   match located with
   | Some h => header st = Some h /\ displayOf st h = "none" /\ mounted st
   | None => unmounted st
   end)
  /\ (isMobile st = false -> unmounted st).

(** The state between two events. *)
Definition consistent (st : State) : Prop :=
  wellFormed st /\ settledAt st /\ (1 <= resizeListeners st)%nat
  /\ presents st.

Lemma mounted_present (st : State) : mounted st -> apparatusPresent st = true.
Proof.
  intros (b & k & d & o1 & o2 & o3 & Hb & _).
  unfold apparatusPresent, has. cbn [c_body core] in Hb. rewrite Hb.
  reflexivity.
Qed.

Lemma unmounted_absent (st : State) :
  unmounted st -> apparatusPresent st = false /\ body st = [].
Proof.
  intros (Hb & _). cbn [c_body core] in Hb.
  unfold apparatusPresent, has. rewrite Hb. split; reflexivity.
Qed.

Lemma consistent_intro (st : State) :
  settledAt st -> (1 <= resizeListeners st)%nat ->
  (header st = None \/ header st = located) ->
  presents st -> consistent st.
Proof.
  intros Hs Hl Hh Hp. split; [|split; [exact Hs|split; [exact Hl|exact Hp]]].
  split; [exact Hh|]. destruct Hp as [Hm Hd].
  destruct (isMobile st) eqn:E.
  - specialize (Hm eq_refl). destruct located as [h|].
    + left. split; [tauto|now exists h].
    + now right.
  - right. now apply Hd.
Qed.

(** [setup] brings any well-formed state into a consistent one, in the mode
    the current width asks for. *)
Lemma setup_consistent (st : State) :
  wellFormed st ->
  let st' := setup options querySelector st in
  consistent st'
  /\ innerWidth st' = innerWidth st
  /\ isMobile st' = (innerWidth st <=? mobileBreakpoint options)%Z
  /\ (isMobile st' = false ->
      (forall h, header st = Some h -> displayOf st' h = "")
      /\ (header st = None -> displayOf st' = displayOf st))
  /\ (isMobile st' = true -> located = None -> displayOf st' = displayOf st).
Proof.
  intros [Hhdr Hshape] st'. subst st'. unfold setup. cbv zeta.
  destruct (core_checkMobile options st) as (C0 & D0 & M0).
  assert (Hshape0 : mounted (checkMobile options st)
                    \/ unmounted (checkMobile options st)).
  { unfold mounted, unmounted. rewrite C0. tauto. }
  assert (H0 : header (checkMobile options st) = header st) by reflexivity.
  generalize dependent (checkMobile options st). intros s0 C0 D0 M0 Hshape0 H0.
  destruct (mode_fields _ _ _ _ _ M0) as (I0 & S0 & W0 & L0).
  rewrite I0.
  destruct (innerWidth st <=? mobileBreakpoint options)%Z eqn:Ew.
  - unfold findHeader. fold located.
    destruct located as [h|] eqn:El.
    + change (header (set_header (Some h) s0)) with (Some h). cbv beta iota.
      assert (Hs1 : mounted (set_header (Some h) s0)
                    \/ unmounted (set_header (Some h) s0)).
      { destruct Hshape0; [left|right]; now apply shape_set_header. }
      assert (M1 : mode (set_header (Some h) s0) = mode s0) by reflexivity.
      assert (D1 : displayOf (set_header (Some h) s0) = displayOf s0)
        by reflexivity.
      destruct (mobile_branch (set_header (Some h) s0) h Hs1 eq_refl)
        as (Hh & Hd & Hm & M2).
      generalize dependent (hideOriginalHeader
        (setupEventListeners
           (createDrawer (createHamburgerButton (set_header (Some h) s0))))).
      intros s2 Hh Hd Hm M2.
      destruct (core_setupResizeListener s2) as (C3 & D3 & M3).
      rewrite M1, M0 in M2.
      destruct (mode_fields _ _ _ _ _ M2) as (I2 & S2 & W2 & L2).
      rewrite I2, S2, W2, L2 in M3.
      assert (Hh3 : header (setupResizeListener s2) = Some h) by exact Hh.
      assert (Hm3 : mounted (setupResizeListener s2))
        by (unfold mounted; rewrite C3; exact Hm).
      generalize dependent (setupResizeListener s2). intros s3 C3 D3 M3 Hh3 Hm3.
      destruct (mode_fields _ _ _ _ _ M3) as (I3 & S3 & W3 & L3).
      split; [|split; [exact W3|split; [exact I3|split]]].
      * apply consistent_intro.
        -- split; [now rewrite I3, W3|now rewrite S3, W3].
        -- rewrite L3. lia.
        -- right. now rewrite El.
        -- split; [|rewrite I3; discriminate]. intros _. rewrite El.
           split; [exact Hh3|]. split; [|exact Hm3]. rewrite D3. exact Hd.
      * rewrite I3. discriminate.
      * intros _ Hnone. discriminate Hnone.
    + assert (Hnone : header st = None) by (destruct Hhdr; congruence).
      rewrite H0, Hnone.
      assert (Hu : unmounted s0).
      { destruct Hshape as [[_ [x Hx]]|Hu]; [discriminate|].
        unfold unmounted. rewrite C0. exact Hu. }
      destruct (core_setupResizeListener s0) as (C3 & D3 & M3).
      assert (Hh3 : header (setupResizeListener s0) = None)
        by (change (header (setupResizeListener s0)) with (header s0);
            now rewrite H0).
      assert (Hu3 : unmounted (setupResizeListener s0))
        by (unfold unmounted; rewrite C3; exact Hu).
      generalize dependent (setupResizeListener s0). intros s3 C3 D3 M3 Hh3 Hu3.
      rewrite I0, S0, W0, L0 in M3.
      destruct (mode_fields _ _ _ _ _ M3) as (I3 & S3 & W3 & L3).
      split; [|split; [exact W3|split; [exact I3|split]]].
      * apply consistent_intro.
        -- split; [now rewrite I3, W3|now rewrite S3, W3].
        -- rewrite L3. lia.
        -- now left.
        -- split; [|intros _; exact Hu3]. intros _. rewrite El. exact Hu3.
      * rewrite I3. discriminate.
      * intros _ _. now rewrite D3, D0.
  - destruct (desktop_branch s0 Hshape0) as (Hu & Hh & Hshow & Hkeep & M2).
    generalize dependent (removeDrawer
                            (removeHamburgerButton (showOriginalHeader s0))).
    intros s2 Hu Hh Hshow Hkeep M2.
    destruct (core_setupResizeListener s2) as (C3 & D3 & M3).
    assert (Hh3 : header (setupResizeListener s2) = header st)
      by (change (header (setupResizeListener s2)) with (header s2);
          now rewrite Hh, H0).
    assert (Hu3 : unmounted (setupResizeListener s2))
      by (unfold unmounted; rewrite C3; exact Hu).
    generalize dependent (setupResizeListener s2). intros s3 C3 D3 M3 Hh3 Hu3.
    destruct (mode_fields _ _ _ _ _ M2) as (I2 & S2 & W2 & L2).
    rewrite I2, S2, W2, L2, I0, S0, W0, L0 in M3.
    destruct (mode_fields _ _ _ _ _ M3) as (I3 & S3 & W3 & L3).
    split; [|split; [exact W3|split; [exact I3|split]]].
    * apply consistent_intro.
      -- split; [now rewrite I3, W3|now rewrite S3, W3].
      -- rewrite L3. lia.
      -- now rewrite Hh3.
      -- split; [rewrite I3; discriminate|intros _; exact Hu3].
    * intros _. split.
      -- intros h Hhs. rewrite D3. apply Hshow. now rewrite H0.
      -- intros Hn. rewrite D3, Hkeep by (now rewrite H0). exact D0.
    * rewrite I3. discriminate.
Qed.

Lemma consistent_wellFormed (st : State) : consistent st -> wellFormed st.
Proof. intros [H _]. exact H. Qed.

Lemma checkMobile_settled (st : State) :
  settledAt st -> checkMobile options st = st.
Proof.
  intros [Hm Hs]. destruct st. unfold checkMobile. cbn in *. now subst.
Qed.

Lemma resizeCallback_settled (st : State) :
  settledAt st -> resizeCallback options querySelector st = st.
Proof.
  intros H. unfold resizeCallback. rewrite (checkMobile_settled st H).
  now rewrite Bool.eqb_reflx.
Qed.

Lemma iter_fixed {A : Type} (f : A -> A) (x : A) (n : nat) :
  f x = x -> Nat.iter n f x = x.
Proof.
  intros H. induction n as [|n IH]; [reflexivity|]. simpl. now rewrite IH.
Qed.

Lemma iter_preserves {A : Type} (P : A -> Prop) (f : A -> A) (n : nat) (x : A) :
  (forall y, P y -> P (f y)) -> P x -> P (Nat.iter n f x).
Proof.
  intros Hf Hx. induction n as [|n IH]; [exact Hx|]. simpl. now apply Hf.
Qed.

(** A resize that does not change the mode only refreshes the flags. *)
Lemma onResize_same_mode (w : Z) (st : State) :
  consistent st ->
  isMobile st = (w <=? mobileBreakpoint options)%Z ->
  onResize options querySelector w st = checkMobile options (set_innerWidth w st).
Proof.
  intros (_ & _ & Hl & _) Hsame. unfold onResize.
  destruct (resizeListeners st) as [|n]; [lia|].
  rewrite Nat.iter_succ_r.
  assert (H1 : resizeCallback options querySelector (set_innerWidth w st)
               = checkMobile options (set_innerWidth w st)).
  { unfold resizeCallback.
    change (isMobile (set_innerWidth w st)) with (isMobile st).
    change (isMobile (checkMobile options (set_innerWidth w st)))
      with (w <=? mobileBreakpoint options)%Z.
    rewrite Hsame. now rewrite Bool.eqb_reflx. }
  rewrite H1. apply iter_fixed. apply resizeCallback_settled.
  split; reflexivity.
Qed.

(** A resize across the breakpoint runs [setup] once, however many resize
    listeners have accumulated. *)
Lemma onResize_crossing (w : Z) (st : State) :
  consistent st ->
  isMobile st <> (w <=? mobileBreakpoint options)%Z ->
  onResize options querySelector w st
  = setup options querySelector (checkMobile options (set_innerWidth w st)).
Proof.
  intros (Hwf & _ & Hl & _) Hcross. unfold onResize.
  destruct (resizeListeners st) as [|n]; [lia|].
  rewrite Nat.iter_succ_r.
  assert (H1 : resizeCallback options querySelector (set_innerWidth w st)
               = setup options querySelector
                   (checkMobile options (set_innerWidth w st))).
  { unfold resizeCallback.
    change (isMobile (set_innerWidth w st)) with (isMobile st).
    change (isMobile (checkMobile options (set_innerWidth w st)))
      with (w <=? mobileBreakpoint options)%Z.
    destruct (Bool.eqb (isMobile st) (w <=? mobileBreakpoint options)%Z) eqn:E;
      [|reflexivity].
    apply Bool.eqb_prop in E. contradiction. }
  rewrite H1. apply iter_fixed. apply resizeCallback_settled.
  assert (Hwf1 : wellFormed (checkMobile options (set_innerWidth w st)))
    by exact Hwf.
  destruct (setup_consistent _ Hwf1) as ((_ & Hs & _) & _). exact Hs.
Qed.

Lemma onResize_consistent (w : Z) (st : State) :
  consistent st -> consistent (onResize options querySelector w st).
Proof.
  intros Hc.
  destruct (bool_decide (isMobile st = (w <=? mobileBreakpoint options)%Z))
    eqn:E.
  - apply bool_decide_eq_true in E. rewrite (onResize_same_mode w st Hc E).
    destruct Hc as (Hwf & _ & Hl & Hp).
    split; [exact Hwf|]. split; [split; reflexivity|]. split; [exact Hl|].
    unfold presents.
    change (isMobile (checkMobile options (set_innerWidth w st)))
      with (w <=? mobileBreakpoint options)%Z.
    rewrite <- E. exact Hp.
  - apply bool_decide_eq_false in E. rewrite (onResize_crossing w st Hc E).
    apply setup_consistent. exact (consistent_wellFormed st Hc).
Qed.

(** Opening and closing the drawer changes how the three nodes are shown,
    not which nodes there are. *)
Lemma set_open_mounted (o : bool) (overflow : string) (st : State) :
  mounted st -> mounted (set_open o overflow st).
Proof.
  intros (b & k & d & o1 & o2 & o3 & Hb & Hbtn & Hk & Hd & Hrest).
  cbn [core c_body c_button c_backdrop c_drawer c_next] in *.
  unfold mounted, mountedC, set_open, display_open.
  cbn [core c_body c_button c_backdrop c_drawer c_next
       body hamburgerButton backdrop drawer nextNode].
  rewrite Hb, Hbtn, Hk, Hd. cbn [map isNode nodeId kind].
  repeat match goal with
         | |- context [if ?c then _ else _] => destruct c
         end;
    exists b, k, d; eexists _, _, _;
    (split; [reflexivity|repeat split; tauto]).
Qed.

Lemma set_open_consistent (o : bool) (overflow : string) (st : State) :
  mounted st -> consistent st -> consistent (set_open o overflow st).
Proof.
  intros Hm ((Hh & Hshape) & Hs & Hl & Hmob & Hdesk).
  pose proof (set_open_mounted o overflow st Hm) as Hm'.
  assert (Hloc : is_Some located).
  { destruct Hshape as [[_ H]|(Hb & _)]; [exact H|].
    destruct Hm as (b & k & d & o1 & o2 & o3 & Hb' & _). congruence. }
  apply consistent_intro; [exact Hs|exact Hl|exact Hh|].
  split.
  - intros Hmode. specialize (Hmob Hmode).
    destruct located as [h|]; [|destruct Hloc; discriminate].
    destruct Hmob as (H1 & H2 & _). auto.
  - intros Hmode. destruct (Hdesk Hmode) as (Hb & _).
    destruct Hm as (b & k & d & o1 & o2 & o3 & Hb' & _). congruence.
Qed.

Lemma mounted_of_drawer (st : State) (d : nat) :
  consistent st -> drawer st = Some d -> mounted st.
Proof.
  intros ((_ & [[Hm _]|(_ & _ & _ & Hd)]) & _) E; [exact Hm|].
  cbn [core c_drawer] in Hd. congruence.
Qed.

Lemma showDrawer_consistent (st : State) :
  consistent st -> consistent (showDrawer st).
Proof.
  intros Hc. unfold showDrawer.
  destruct (drawer st) as [d|] eqn:Ed; [|exact Hc].
  destruct (backdrop st) as [k|] eqn:Ek; [|exact Hc].
  apply set_open_consistent; [|exact Hc]. exact (mounted_of_drawer st d Hc Ed).
Qed.

Lemma hideDrawer_consistent (st : State) :
  consistent st -> consistent (hideDrawer st).
Proof.
  intros Hc. unfold hideDrawer.
  destruct (drawer st) as [d|] eqn:Ed; [|exact Hc].
  destruct (backdrop st) as [k|] eqn:Ek; [|exact Hc].
  apply set_open_consistent; [|exact Hc]. exact (mounted_of_drawer st d Hc Ed).
Qed.

Lemma step_consistent (st : State) (ev : Event) :
  consistent st -> consistent (step options querySelector st ev).
Proof.
  intros Hc. destruct ev as [w| | | |]; cbn [step].
  - now apply onResize_consistent.
  - destruct (hamburgerButton st); [|exact Hc]. unfold toggleDrawer.
    destruct (isOpen st);
      [now apply hideDrawer_consistent|now apply showDrawer_consistent].
  - now apply hideDrawer_consistent.
  - apply iter_preserves; [|exact Hc]. intros y Hy. unfold onEscape.
    destruct (isOpen y); [now apply hideDrawer_consistent|exact Hy].
  - apply setup_consistent. exact (consistent_wellFormed st Hc).
Qed.

Lemma create_consistent (w : Z) (display0 : nat -> string) :
  autoInit options = true ->
  consistent (create options querySelector w display0).
Proof.
  intros Ha. unfold create. rewrite Ha. apply setup_consistent.
  split; [now left|]. right. repeat split.
Qed.

Lemma run_consistent (evs : list Event) (st : State) :
  consistent st -> consistent (run options querySelector evs st).
Proof.
  revert st. induction evs as [|ev evs IH]; intros st Hc; [exact Hc|].
  cbn [run fold_left]. apply IH. now apply step_consistent.
Qed.

End Invariant.

(** C4: with the default options the breakpoint is 900; after construction
    and any events the controller is in mobile mode exactly when the width
    of the window is at most the configured breakpoint, and so it is after a
    further resize to any width [W]; and after a resize that crosses the
    breakpoint exactly one of the two presentations is in place: on a page
    whose header the selectors locate, either the header is visible and
    nothing of the apparatus is in the body (desktop), or the header is
    hidden and the button, the backdrop and the drawer are all there
    (mobile); on a page where no selector matches, no element is hidden and
    no apparatus is created. *)
Theorem mobile_mode_and_exclusive_presentation
    (options : Options) (querySelector : string -> option nat)
    (w0 : Z) (display0 : nat -> string) (evs : list Event) (W : Z) :
  autoInit options = true ->
  let st := run options querySelector evs
                (create options querySelector w0 display0) in
  let st' := onResize options querySelector W st in
  mobileBreakpoint defaults = 900%Z
  /\ (isMobile st = true <-> (innerWidth st <= mobileBreakpoint options)%Z)
  /\ (isMobile st' = true <-> (W <= mobileBreakpoint options)%Z)
  /\ ((innerWidth st <=? mobileBreakpoint options)%Z
      <> (W <=? mobileBreakpoint options)%Z ->
      match located options querySelector with
      | Some h =>
          xorb (headerVisible h st') (apparatusPresent st') = true
          /\ headerVisible h st' = negb (isMobile st')
          /\ apparatusPresent st' = isMobile st'
          /\ (apparatusPresent st' = false -> body st' = [])
      | None =>
          apparatusPresent st' = false /\ body st' = []
          /\ displayOf st' = displayOf st
      end).
Proof.
  intros Hauto st st'.
  assert (Hc : consistent options querySelector st).
  { apply run_consistent. now apply create_consistent. }
  assert (Hmode : isMobile st' = (W <=? mobileBreakpoint options)%Z).
  { subst st'.
    destruct (bool_decide (isMobile st = (W <=? mobileBreakpoint options)%Z))
      eqn:E.
    - apply bool_decide_eq_true in E.
      now rewrite (onResize_same_mode options querySelector W st Hc E).
    - apply bool_decide_eq_false in E.
      rewrite (onResize_crossing options querySelector W st Hc E).
      assert (Hwf1 : wellFormed options querySelector
                       (checkMobile options (set_innerWidth W st)))
        by exact (consistent_wellFormed _ _ _ Hc).
      destruct (setup_consistent options querySelector _ Hwf1)
        as (_ & _ & Hm & _). exact Hm. }
  pose proof Hc as (Hwf & (Hset & _) & Hl & Hp).
  split; [reflexivity|]. split.
  { rewrite Hset. apply Z.leb_le. }
  split.
  { rewrite Hmode. apply Z.leb_le. }
  intros Hcross.
  rewrite <- Hset in Hcross.
  assert (Hwf1 : wellFormed options querySelector
                   (checkMobile options (set_innerWidth W st))) by exact Hwf.
  destruct (setup_consistent options querySelector _ Hwf1)
    as ((_ & _ & _ & Hp') & _ & _ & Hdesk & Hmob).
  rewrite <- (onResize_crossing options querySelector W st Hc Hcross) in *.
  fold st' in Hp', Hdesk, Hmob.
  change (header (checkMobile options (set_innerWidth W st)))
    with (header st) in Hdesk.
  change (displayOf (checkMobile options (set_innerWidth W st)))
    with (displayOf st) in Hdesk, Hmob.
  destruct Hp' as [Hp'm Hp'd]. destruct Hp as [Hpm _].
  destruct (isMobile st') eqn:Em.
  - specialize (Hp'm eq_refl).
    destruct (located options querySelector) as [h|] eqn:El.
    + destruct Hp'm as (_ & Hnone & Hm).
      unfold headerVisible. rewrite Hnone, (mounted_present _ Hm).
      repeat split. discriminate.
    + destruct (unmounted_absent _ Hp'm) as [Ha Hb]. rewrite Ha.
      repeat split; auto.
  - destruct (unmounted_absent _ (Hp'd eq_refl)) as [Ha Hb]. rewrite Ha.
    destruct (Hdesk eq_refl) as [Hshow Hkeep].
    assert (Hwas : isMobile st = true).
    { destruct (isMobile st); [reflexivity|]. now rewrite <- Hmode in Hcross. }
    specialize (Hpm Hwas).
    destruct (located options querySelector) as [h|] eqn:El.
    + destruct Hpm as (Hh & _). unfold headerVisible.
      rewrite (Hshow h Hh). repeat split; auto.
    + destruct Hwf as [[Hh|Hh] _].
      * repeat split; auto.
      * rewrite El in Hh. repeat split; auto.
Qed.

(** A page whose [header] element is element 0, loaded at width 1200,
    narrowed to 600, where the drawer is opened. *)
Definition headerPage (selector : string) : option nat :=
  if String.eqb selector "header" then Some 0%nat else None.

Definition narrowed : State :=
  run defaults headerPage [Resize 600; HamburgerClick]
      (create defaults headerPage 1200 (fun _ => "")).

Lemma mobile_mode_and_exclusive_presentation_witness :
  autoInit defaults = true
  /\ (innerWidth narrowed <=? mobileBreakpoint defaults)%Z
     <> (1024 <=? mobileBreakpoint defaults)%Z
  /\ xorb (headerVisible 0 (onResize defaults headerPage 1024 narrowed))
          (apparatusPresent (onResize defaults headerPage 1024 narrowed))
     = true.
Proof.
  unfold narrowed.
  pose proof (mobile_mode_and_exclusive_presentation
                defaults headerPage 1200 (fun _ => "")
                [Resize 600; HamburgerClick] 1024 eq_refl) as H.
  cbv zeta in H. destruct H as (_ & _ & _ & H).
  match type of H with
  | ?A -> _ => assert (Hcross : A) by (vm_compute; discriminate)
  end.
  split; [reflexivity|]. split; [exact Hcross|].
  specialize (H Hcross).
  assert (El : located defaults headerPage = Some 0%nat) by reflexivity.
  rewrite El in H. exact (proj1 H).
Defined.

End DrawerFacts.
